(** * Anonymous message board: routes/api.js

    A shallow embedding of the Express/Mongoose routing module
    [routes/api.js]: the three Mongoose models (Board, Thread, Reply), the
    helper [getBoard] and the eight route handlers, followed by the
    properties of the handlers.

    Modelling choices.
    - A MongoDB collection is the list of its documents in natural
      (insertion) order.  Stored documents are records whose fields are the
      paths of the Mongoose schema.
    - What a query hands to the handler (a Mongoose document or a [lean]
      object) is a JavaScript object: a list of properties, obtained from
      the stored record through the field selection of the query, where
      paths declared [select: false] are left out unless the query names
      them.
    - [Date.now], the salt of [bcrypt.hash] and the generation of ObjectIds
      are effects: the world counts the calls, and the values come from the
      interface [Externals].
    - A handler runs in a state-and-exception monad.  An exception that
      leaves an [async] handler is an unhandled rejection: Express sends no
      response.  Writes made before the exception stay in the store.
    - Ids in requests are well-formed ObjectIds; Mongoose's version key
      [__v] is not modelled. *)

From Stdlib Require Import String ZArith List Bool Arith Lia Sorted Permutation.
Import ListNotations.
Open Scope string_scope.
Open Scope list_scope.

(** ** JavaScript values and objects *)

Definition ObjectId := nat.

#[warnings="-register-all"]
Inductive json : Type :=
| JNull
| JBool (b : bool)
| JNum (n : Z)
| JStr (s : string)
| JDate (ms : Z)
| JOid (id : ObjectId)
| JArr (xs : list json)
| JObj (props : list (string * json)).

Definition object := list (string * json).

(** [o.k] : the value of property [k], [None] for [undefined]. *)
Fixpoint obj_get (k : string) (o : object) : option json :=
  match o with
  | [] => None
  | (k', v) :: o' => if String.eqb k k' then Some v else obj_get k o'
  end.

(** [o.k = v] : an existing property keeps its place, a new one is added
    at the end. *)
Fixpoint obj_set (k : string) (v : json) (o : object) : object :=
  match o with
  | [] => [(k, v)]
  | (k', v') :: o' =>
      if String.eqb k k' then (k, v) :: o' else (k', v') :: obj_set k v o'
  end.

Definition keys (o : object) : list string := map fst o.

Definition has_key (k : string) (o : object) : bool :=
  existsb (String.eqb k) (keys o).

(** [Array.prototype.slice(start)] with one argument: a negative [start]
    counts from the end, and both ends are clamped to the array. *)
Definition js_slice {A : Type} (xs : list A) (start : Z) : list A :=
  let len := Z.of_nat (length xs) in
  let k := if (start <? 0)%Z then Z.max (len + start) 0 else Z.min start len in
  skipn (Z.to_nat k) xs.

(** [a || b] on two optional request fields. *)
Definition js_or {A : Type} (a b : option A) : option A :=
  match a with Some _ => a | None => b end.

(** ** Schemas *)

Inductive default_value : Type :=
| NoDefault
| DefaultDateNow
| DefaultBool (b : bool).

Record SchemaPath : Type := {
  path : string;
  required : bool;
  select : bool;
  default : default_value
}.

Definition replySchema : list SchemaPath :=
  [ {| path := "text"; required := false; select := true; default := NoDefault |};
    {| path := "created_on"; required := false; select := true; default := DefaultDateNow |};
    {| path := "delete_password"; required := true; select := false; default := NoDefault |};
    {| path := "reported"; required := false; select := false; default := DefaultBool false |} ].

Definition threadSchema : list SchemaPath :=
  [ {| path := "text"; required := true; select := true; default := NoDefault |};
    {| path := "created_on"; required := false; select := true; default := DefaultDateNow |};
    {| path := "bumped_on"; required := false; select := true; default := DefaultDateNow |};
    {| path := "delete_password"; required := true; select := false; default := NoDefault |};
    {| path := "reported"; required := false; select := false; default := DefaultBool false |};
    {| path := "replies"; required := false; select := true; default := NoDefault |} ].

Definition boardSchema : list SchemaPath :=
  [ {| path := "name"; required := true; select := true; default := NoDefault |};
    {| path := "threads"; required := false; select := true; default := NoDefault |} ].

(** Whether a query with field selection [fields] returns path [k]:
    [_id] always; with an inclusive selection such as ['delete_password text']
    the named paths only; with none, every path not declared
    [select: false]. *)
Definition selected (schema : list SchemaPath) (fields : option (list string))
    (k : string) : bool :=
  if String.eqb k "_id" then true
  else match fields with
       | Some fs => existsb (String.eqb k) fs
       | None =>
           match find (fun p => String.eqb (path p) k) schema with
           | Some p => select p
           | None => true
           end
       end.

Definition applySelect (schema : list SchemaPath) (fields : option (list string))
    (o : object) : object :=
  filter (fun kv => selected schema fields (fst kv)) o.

(** Mongoose's [required] validator on a String path: the value is there
    and is not the empty string. *)
Definition checkRequired (v : option string) : bool :=
  match v with
  | Some s => negb (String.eqb s "")
  | None => false
  end.

(** ** Stored documents *)

Module Reply.
Record t : Type := mk {
  _id : ObjectId;
  text : option string;
  created_on : Z;
  delete_password : string;
  reported : bool
}.

Definition toObject (r : t) : object :=
  ([("_id", JOid (_id r))]
   ++ match text r with Some s => [("text", JStr s)] | None => [] end
   ++ [("created_on", JDate (created_on r));
       ("delete_password", JStr (delete_password r));
       ("reported", JBool (reported r))])%list.

Definition set_text (s : string) (r : t) : t :=
  mk (_id r) (Some s) (created_on r) (delete_password r) (reported r).

Definition set_reported (b : bool) (r : t) : t :=
  mk (_id r) (text r) (created_on r) (delete_password r) b.
End Reply.

Module Thread.
Record t : Type := mk {
  _id : ObjectId;
  text : string;
  created_on : Z;
  bumped_on : Z;
  delete_password : string;
  reported : bool;
  replies : list ObjectId
}.

Definition toObject (d : t) : object :=
  [("_id", JOid (_id d));
   ("text", JStr (text d));
   ("created_on", JDate (created_on d));
   ("bumped_on", JDate (bumped_on d));
   ("delete_password", JStr (delete_password d));
   ("reported", JBool (reported d));
   ("replies", JArr (map JOid (replies d)))].

Definition set_reported (b : bool) (d : t) : t :=
  mk (_id d) (text d) (created_on d) (bumped_on d) (delete_password d) b
     (replies d).

(** The update written by [thread.save()] after
    [thread.replies.push(reply)] and [thread.bumped_on = ...]. *)
Definition push_reply (rid : ObjectId) (bumped : Z) (d : t) : t :=
  mk (_id d) (text d) (created_on d) bumped (delete_password d) (reported d)
     (replies d ++ [rid])%list.
End Thread.

Module Board.
Record t : Type := mk {
  _id : ObjectId;
  name : string;
  threads : list ObjectId
}.

Definition toObject (b : t) : object :=
  [("_id", JOid (_id b));
   ("name", JStr (name b));
   ("threads", JArr (map JOid (threads b)))].

(** The update written by [board.save()] after
    [board.threads.push(thread)]. *)
Definition push_thread (tid : ObjectId) (b : t) : t :=
  mk (_id b) (name b) (threads b ++ [tid])%list.
End Board.

(** ** Collections *)

Section Collection.
Context {D : Type} (id_of : D -> ObjectId).

(** [Model.findOne({ _id: id })] on the stored documents. *)
Definition findById (id : ObjectId) (c : list D) : option D :=
  find (fun d => Nat.eqb (id_of d) id) c.

(** [updateOne({ _id: id }, ...)]: the first document with that id. *)
Fixpoint updateOne (id : ObjectId) (f : D -> D) (c : list D) : list D :=
  match c with
  | [] => []
  | d :: c' =>
      if Nat.eqb (id_of d) id then f d :: c' else d :: updateOne id f c'
  end.

(** [deleteOne({ _id: id })]. *)
Fixpoint deleteOne (id : ObjectId) (c : list D) : list D :=
  match c with
  | [] => []
  | d :: c' => if Nat.eqb (id_of d) id then c' else d :: deleteOne id c'
  end.
End Collection.

Record Db : Type := {
  boards : list Board.t;
  threads : list Thread.t;
  replies : list Reply.t
}.

(** The store, and how many ObjectIds, clock readings and salts the
    process has drawn so far. *)
Record World : Type := {
  db : Db;
  oids : nat;
  ticks : nat;
  salts : nat
}.

Definition with_db (f : Db -> Db) (w : World) : World :=
  {| db := f (db w); oids := oids w; ticks := ticks w; salts := salts w |}.

Definition set_boards (bs : list Board.t) (d : Db) : Db :=
  {| boards := bs; threads := threads d; replies := replies d |}.

Definition set_threads (ts : list Thread.t) (d : Db) : Db :=
  {| boards := boards d; threads := ts; replies := replies d |}.

Definition set_replies (rs : list Reply.t) (d : Db) : Db :=
  {| boards := boards d; threads := threads d; replies := rs |}.

(** ** What the module takes from outside *)

Class Externals : Type := {
  (** the value of the [n]-th call of [Date.now], in milliseconds *)
  Date_now : nat -> Z;
  (** [bcrypt.hash(data, saltRounds)] with the [n]-th generated salt *)
  bcrypt_hash : string -> nat -> nat -> string;
  (** [bcrypt.compare(data, encrypted)] *)
  bcrypt_compare : string -> string -> bool;
  (** a bcrypt digest is a string of 60 characters *)
  bcrypt_hash_nonempty : forall data rounds n, bcrypt_hash data rounds n <> ""
}.

(** A clock that advances one millisecond per reading and a transparent
    stand-in for bcrypt, to run the handlers on concrete requests. *)
Definition demo_hash (data : string) (rounds n : nat) : string :=
  ("$2b$" ++ data)%string.

Definition demo_compare (data encrypted : string) : bool :=
  String.eqb encrypted ("$2b$" ++ data)%string.

Definition demo_hash_nonempty (data : string) (rounds n : nat) :
    demo_hash data rounds n <> "" :=
  fun H =>
    match H in (_ = s)
      return (match s with EmptyString => False | String _ _ => True end)
    with eq_refl => I end.

Definition demo : Externals := {|
  Date_now := fun n => (1000 + Z.of_nat n)%Z;
  bcrypt_hash := demo_hash;
  bcrypt_compare := demo_compare;
  bcrypt_hash_nonempty := demo_hash_nonempty
|}.

(** ** The monad of the handlers *)

Inductive exn : Type :=
| TypeError
| BcryptError
| ValidationError (paths : list string)
| CastError.

Inductive result (A : Type) : Type :=
| Ok (a : A)
| Throw (e : exn).
Arguments Ok {A} a.
Arguments Throw {A} e.

Definition M (A : Type) : Type := World -> result A * World.

Definition ret {A : Type} (a : A) : M A := fun w => (Ok a, w).

Definition throw {A : Type} (e : exn) : M A := fun w => (Throw e, w).

Definition bind {A B : Type} (c : M A) (k : A -> M B) : M B :=
  fun w =>
    match c w with
    | (Ok a, w') => k a w'
    | (Throw e, w') => (Throw e, w')
    end.

Notation "x <- c ;; k" := (bind c (fun x => k))
  (at level 100, c at next level, right associativity).
Notation "c ;;; k" := (bind c (fun _ => k))
  (at level 100, right associativity).

Definition read {A : Type} (f : World -> A) : M A := fun w => (Ok (f w), w).

Definition write (f : Db -> Db) : M unit := fun w => (Ok tt, with_db f w).

Definition lift {A : Type} (r : result A) : M A := fun w => (r, w).

Fixpoint forEach {A B : Type} (f : A -> result B) (xs : list A) : result (list B) :=
  match xs with
  | [] => Ok []
  | x :: xs' =>
      match f x with
      | Ok y =>
          match forEach f xs' with
          | Ok ys => Ok (y :: ys)
          | Throw e => Throw e
          end
      | Throw e => Throw e
      end
  end.

(** ** Effects outside the store *)

Section Handlers.
Context {E : Externals}.

(** A new ObjectId, drawn when a document is constructed. *)
Definition new_ObjectId : M ObjectId :=
  fun w => (Ok (oids w),
            {| db := db w; oids := S (oids w); ticks := ticks w; salts := salts w |}).

(** One call of [Date.now]. *)
Definition now : M Z :=
  fun w => (Ok (Date_now (ticks w)),
            {| db := db w; oids := oids w; ticks := S (ticks w); salts := salts w |}).

(** [await bcrypt.hash(data, saltRounds)]: rejects when [data] is
    [undefined] ("data and salt arguments required"). *)
Definition hash (data : option string) (saltRounds : nat) : M string :=
  match data with
  | None => throw BcryptError
  | Some d =>
      fun w => (Ok (bcrypt_hash d saltRounds (salts w)),
                {| db := db w; oids := oids w; ticks := ticks w; salts := S (salts w) |})
  end.

(** [await bcrypt.compare(data, encrypted)]: rejects when an argument is
    [undefined] or not a string. *)
Definition compare (data : option string) (encrypted : option json) : M bool :=
  match data, encrypted with
  | Some d, Some (JStr h) => ret (bcrypt_compare d h)
  | _, _ => throw BcryptError
  end.

(** ** Queries and writes of the three models *)

(** A Mongoose document as a query returns it: its [_id] and the selected
    paths. *)
Record Document : Type := {
  doc_id : ObjectId;
  doc : object
}.

Definition Thread_document (fields : option (list string)) (t : Thread.t) : Document :=
  {| doc_id := Thread._id t;
     doc := applySelect threadSchema fields (Thread.toObject t) |}.

Definition Reply_document (fields : option (list string)) (r : Reply.t) : Document :=
  {| doc_id := Reply._id r;
     doc := applySelect replySchema fields (Reply.toObject r) |}.

(** [Thread.findOne({ _id: id }, fields).exec()] *)
Definition Thread_findOne (id : ObjectId) (fields : option (list string))
    : M (option Document) :=
  read (fun w => option_map (Thread_document fields)
                   (findById Thread._id id (threads (db w)))).

(** [Reply.findOne({ _id: id }, fields).exec()] *)
Definition Reply_findOne (id : ObjectId) (fields : option (list string))
    : M (option Document) :=
  read (fun w => option_map (Reply_document fields)
                   (findById Reply._id id (replies (db w)))).

(** [Board.findOne({ name })]: the first board of that name.  No path of
    [boardSchema] is hidden, so the document is the stored record. *)
Definition Board_findOne (name : string) : M (option Board.t) :=
  read (fun w => find (fun b => String.eqb (Board.name b) name) (boards (db w))).

(** Validation on [save()]: the paths declared [required] whose value,
    among the String values given to the constructor, fails the validator. *)
Definition validate (schema : list SchemaPath) (values : list (string * option string))
    : list string :=
  map path
    (filter
       (fun p =>
          required p
          && negb (checkRequired
                     (match find (fun v => String.eqb (fst v) (path p)) values with
                      | Some v => snd v
                      | None => None
                      end)))
       schema).

(** [new Board({ name })] followed by [save()]. *)
Definition Board_create (name : string) : M Board.t :=
  id <- new_ObjectId ;;
  match validate boardSchema [("name", Some name)] with
  | [] =>
      let b := Board.mk id name [] in
      write (fun d => set_boards (boards d ++ [b]) d) ;;;
      ret b
  | errors => throw (ValidationError errors)
  end.

(** [new Thread({ text, delete_password })] followed by [save()]: the two
    date paths take their default [Date.now] one after the other. *)
Definition Thread_create (text : option string) (delete_password : string)
    : M Thread.t :=
  id <- new_ObjectId ;;
  created <- now ;;
  bumped <- now ;;
  match text,
        validate threadSchema [("text", text); ("delete_password", Some delete_password)]
  with
  | Some s, [] =>
      let t := Thread.mk id s created bumped delete_password false [] in
      write (fun d => set_threads (threads d ++ [t]) d) ;;;
      ret t
  | _, errors => throw (ValidationError errors)
  end.

(** [new Reply({ text, delete_password })] followed by [save()]. *)
Definition Reply_create (text : option string) (delete_password : string)
    : M Reply.t :=
  id <- new_ObjectId ;;
  created <- now ;;
  match validate replySchema [("text", text); ("delete_password", Some delete_password)] with
  | [] =>
      let r := Reply.mk id text created delete_password false in
      write (fun d => set_replies (replies d ++ [r]) d) ;;;
      ret r
  | errors => throw (ValidationError errors)
  end.

(** [populate('replies')]: each id of the array is replaced by the reply
    document it refers to, read with the default selection of
    [replySchema]; ids that refer to nothing are dropped. *)
Definition populate_reply (rs : list Reply.t) (j : json) : list json :=
  match j with
  | JOid id =>
      match findById Reply._id id rs with
      | Some r => [JObj (doc (Reply_document None r))]
      | None => []
      end
  | _ => []
  end.

Definition populate (rs : list Reply.t) (o : object) : object :=
  match obj_get "replies" o with
  | Some (JArr ids) => obj_set "replies" (JArr (flat_map (populate_reply rs) ids)) o
  | _ => o
  end.

(** [.sort({ bumped_on: -1 })]: most recently bumped first, documents of
    equal date in natural order. *)
Fixpoint insert_desc (t : Thread.t) (l : list Thread.t) : list Thread.t :=
  match l with
  | [] => [t]
  | x :: l' =>
      if (Thread.bumped_on t <? Thread.bumped_on x)%Z
      then x :: insert_desc t l'
      else t :: x :: l'
  end.

Definition sort_bumped_desc (l : list Thread.t) : list Thread.t :=
  fold_right insert_desc [] l.

(** [Thread.find({ _id: { $in: ids } }).sort({ bumped_on: -1 }).limit(10)
      .populate({ path: 'replies' }).lean().exec()] *)
Definition Thread_find_recent (ids : list ObjectId) : M (list object) :=
  read (fun w =>
    map (fun t => populate (replies (db w)) (doc (Thread_document None t)))
      (firstn 10
         (sort_bumped_desc
            (filter (fun t => existsb (Nat.eqb (Thread._id t)) ids)
               (threads (db w)))))).

(** [Thread.findOne({ _id: id }).populate('replies').lean().exec()] *)
Definition Thread_findOne_populated (id : ObjectId) : M (option object) :=
  read (fun w =>
    option_map (fun t => populate (replies (db w)) (doc (Thread_document None t)))
      (findById Thread._id id (threads (db w)))).

(** [Model.findByIdAndUpdate({ _id: id }, { $set: { reported: 'true' } },
      { useFindAndModify: false })]: the string is cast to the Boolean
    path; the result is the document as it was, or [null]. *)
Definition Thread_findByIdAndUpdate_reported (id : ObjectId) : M (option Document) :=
  found <- Thread_findOne id None ;;
  write (fun d => set_threads (updateOne Thread._id id (Thread.set_reported true) (threads d)) d) ;;;
  ret found.

Definition Reply_findByIdAndUpdate_reported (id : ObjectId) : M (option Document) :=
  found <- Reply_findOne id None ;;
  write (fun d => set_replies (updateOne Reply._id id (Reply.set_reported true) (replies d)) d) ;;;
  ret found.

(** ** Responses *)

(** The pages the handlers redirect to: [/b/<board>/] and
    [/b/<board>/?thread_id=<id>]. *)
Inductive location : Type :=
| BoardPage (board : string)
| ThreadPage (board : string) (thread_id : ObjectId).

(** [res.status(s).send(body)] and [res.status(s).redirect(url)];
    [send(null)] sends [JNull]. *)
Inductive response : Type :=
| Send (status : nat) (body : json)
| Redirect (status : nat) (to : location).

(** ** getBoard *)

Definition getBoard (name : string) : M Board.t :=
  board <- Board_findOne name ;;
  match board with
  | None => Board_create name
  | Some b => ret b
  end.

(** ** /api/threads/:board *)

(** POST.  The password is hashed, then the board resolved, then the
    thread validated and saved, then the board updated. *)
Definition threads_post (board : string) (text delete_password : option string)
    : M response :=
  hashedPW <- hash delete_password 10 ;;
  b <- getBoard board ;;
  savedThread <- Thread_create text hashedPW ;;
  write (fun d => set_boards
           (updateOne Board._id (Board._id b)
              (Board.push_thread (Thread._id savedThread)) (boards d)) d) ;;;
  ret (Redirect 302 (BoardPage board)).

(** The body of the [forEach] of the GET handler. *)
Definition preview (thread : object) : result object :=
  match obj_get "replies" thread with
  | Some (JArr rs) =>
      let replycount := Z.of_nat (length rs) in
      let thread := obj_set "replycount" (JNum replycount) thread in
      Ok (obj_set "replies" (JArr (js_slice rs (Z.of_nat (length rs) - 3))) thread)
  | _ => Throw TypeError
  end.

(** GET.  The route parameter [req.params.board] is never empty, so
    [req.params.board || req.body.board] is the parameter; an array is
    truthy, so the [forEach] always runs. *)
Definition threads_get (board : string) : M response :=
  b <- getBoard board ;;
  found <- Thread_find_recent (Board.threads b) ;;
  views <- lift (forEach preview found) ;;
  ret (Send 200 (JArr (map JObj views))).

(** DELETE.  [thread.delete_password] is evaluated before
    [bcrypt.compare] is called, and raises on [null]. *)
Definition threads_delete (delete_password : option string) (thread_id : ObjectId)
    : M response :=
  thread <- Thread_findOne thread_id (Some ["delete_password"]) ;;
  match thread with
  | None => throw TypeError
  | Some th =>
      matches <- compare delete_password (obj_get "delete_password" (doc th)) ;;
      if matches then
        write (fun d => set_threads (deleteOne Thread._id (doc_id th) (threads d)) d) ;;;
        ret (Send 200 (JStr "success"))
      else
        ret (Send 400 (JStr "incorrect password"))
  end.

(** PUT.  With neither id in the body Mongoose cannot cast the filter to
    an ObjectId.  [thread.save()] on the document as it was read writes
    nothing; on [null] it raises. *)
Definition threads_put (thread_id report_id : option ObjectId) : M response :=
  match js_or thread_id report_id with
  | None => throw CastError
  | Some id =>
      thread <- Thread_findByIdAndUpdate_reported id ;;
      match thread with
      | None => throw TypeError
      | Some _ => ret (Send 200 (JStr "success"))
      end
  end.

(** ** /api/replies/:board *)

(** POST.  The reply is saved before the thread is touched. *)
Definition replies_post (board : string) (text delete_password : option string)
    (thread_id : ObjectId) : M response :=
  hashedPW <- hash delete_password 10 ;;
  thread <- Thread_findOne thread_id None ;;
  savedReply <- Reply_create text hashedPW ;;
  match thread with
  | None => throw TypeError
  | Some th =>
      write (fun d => set_threads
               (updateOne Thread._id (doc_id th)
                  (Thread.push_reply (Reply._id savedReply) (Reply.created_on savedReply))
                  (threads d)) d) ;;;
      ret (Redirect 302 (ThreadPage board thread_id))
  end.

(** GET *)
Definition replies_get (thread_id : ObjectId) : M response :=
  thread <- Thread_findOne_populated thread_id ;;
  ret (Send 200 match thread with Some o => JObj o | None => JNull end).

(** DELETE.  The two queries are started together and awaited in turn;
    the thread is not used afterwards. *)
Definition replies_delete (delete_password : option string)
    (thread_id reply_id : ObjectId) : M response :=
  thread <- Thread_findOne thread_id None ;;
  reply <- Reply_findOne reply_id (Some ["delete_password"; "text"]) ;;
  match reply with
  | None => throw TypeError
  | Some rp =>
      matches <- compare delete_password (obj_get "delete_password" (doc rp)) ;;
      if matches then
        write (fun d => set_replies
                 (updateOne Reply._id (doc_id rp) (Reply.set_text "[deleted]")
                    (replies d)) d) ;;;
        ret (Send 200 (JStr "success"))
      else
        ret (Send 400 (JStr "incorrect password"))
  end.

(** PUT.  The thread id of the body is not used. *)
Definition replies_put (reply_id thread_id : ObjectId) : M response :=
  reply <- Reply_findByIdAndUpdate_reported reply_id ;;
  match reply with
  | None => throw TypeError
  | Some _ => ret (Send 200 (JStr "success"))
  end.

End Handlers.

(** ** Running the handlers *)

Definition outcome {A : Type} (c : M A) (w : World) : result A := fst (c w).

Definition exec {A : Type} (c : M A) (w : World) : World := snd (c w).

Definition empty_world : World :=
  {| db := {| boards := []; threads := []; replies := [] |};
     oids := 0; ticks := 0; salts := 0 |}.

(** The scenario of the board "general": a thread "hello" (ObjectId 1 on
    board 0), then the replies "hi" (ObjectId 2) and "again" (ObjectId 3). *)
Definition world_hello : World :=
  exec (threads_post (E := demo) "general" (Some "hello") (Some "p1")) empty_world.

Definition world_hi : World :=
  exec (replies_post (E := demo) "general" (Some "hi") (Some "p2") 1) world_hello.

Definition world_again : World :=
  exec (replies_post (E := demo) "general" (Some "again") (Some "p3") 1) world_hi.

(** A second thread "second" (ObjectId 4) on the same board. *)
Definition world_second : World :=
  exec (threads_post (E := demo) "general" (Some "second") (Some "p4")) world_again.

(** The thread "hello" and its reply "hi" as [world_again] stores them. *)
Definition thread_hello : Thread.t :=
  Thread.mk 1 "hello" 1000 1003 "$2b$p1" false [2; 3].

Definition reply_hi : Reply.t :=
  Reply.mk 2 (Some "hi") 1002 "$2b$p2" false.

(** ** What the read views are checked for *)

(** Neither private path is a property of the object. *)
Definition hides_private (o : object) : bool :=
  negb (has_key "delete_password" o) && negb (has_key "reported" o).

(** The replies attached to an emitted thread. *)
Definition reply_views (o : object) : list json :=
  match obj_get "replies" o with
  | Some (JArr rs) => rs
  | _ => []
  end.

(** A reply as the read views show it: an object without the private
    paths. *)
Definition reply_hides_private (r : json) : bool :=
  match r with
  | JObj ro => hides_private ro
  | _ => false
  end.

(** An emitted thread: an object without the private paths whose replies
    are objects without them. *)
Definition view_hides_private (j : json) : bool :=
  match j with
  | JObj o =>
      hides_private o && forallb reply_hides_private (reply_views o)
  | _ => false
  end.

Definition bumped_on_of (j : json) : option Z :=
  match j with
  | JObj o =>
      match obj_get "bumped_on" o with
      | Some (JDate ms) => Some ms
      | _ => None
      end
  | _ => None
  end.

Definition replycount_of (j : json) : option Z :=
  match j with
  | JObj o =>
      match obj_get "replycount" o with
      | Some (JNum n) => Some n
      | _ => None
      end
  | _ => None
  end.

(** The reply as [populate] attaches it. *)
Definition reply_view (r : Reply.t) : json := JObj (doc (Reply_document None r)).

(** The object that GET /api/threads/:board emits for a stored thread:
    the selected paths, the populated replies cut by [slice], and
    [replycount]. *)
Definition thread_list_view (rs : list Reply.t) (t : Thread.t) : object :=
  let all := flat_map (populate_reply rs) (map JOid (Thread.replies t)) in
  [("_id", JOid (Thread._id t));
   ("text", JStr (Thread.text t));
   ("created_on", JDate (Thread.created_on t));
   ("bumped_on", JDate (Thread.bumped_on t));
   ("replies", JArr (js_slice all (Z.of_nat (length all) - 3)));
   ("replycount", JNum (Z.of_nat (length all)))].

(** The threads that GET /api/threads/:board reads for the thread ids of
    a board. *)
Definition recent_threads (ids : list ObjectId) (d : Db) : list Thread.t :=
  firstn 10
    (sort_bumped_desc
       (filter (fun t => existsb (Nat.eqb (Thread._id t)) ids) (threads d))).

(** Most recently bumped first. *)
Definition bumped_after (a b : Thread.t) : Prop :=
  (Thread.bumped_on b <= Thread.bumped_on a)%Z.

(** How a reply [a] attached to a thread compares with the reply [b] at the
    same place after the text of [r] was overwritten: [r] shows the marker,
    any other reply is as it was. *)
Definition redacted_or_same (r : Reply.t) (a b : json) : Prop :=
  (a = reply_view r /\ b = reply_view (Reply.set_text "[deleted]" r))
  \/ (a <> reply_view r /\ b = a).

(** Ids are unique in each collection, and were all drawn from the
    counter of the process. *)
Definition ids_below (n : nat) (ids : list ObjectId) : Prop :=
  Forall (fun id => id < n) ids.

Record wf (w : World) : Prop := {
  wf_boards : NoDup (map Board._id (boards (db w)));
  wf_threads : NoDup (map Thread._id (threads (db w)));
  wf_replies : NoDup (map Reply._id (replies (db w)));
  wf_boards_below : ids_below (oids w) (map Board._id (boards (db w)));
  wf_threads_below : ids_below (oids w) (map Thread._id (threads (db w)));
  wf_replies_below : ids_below (oids w) (map Reply._id (replies (db w)))
}.

(** A computation keeps the invariant of the store. *)
Definition preserves {A : Type} (c : M A) : Prop :=
  forall w, wf w -> wf (exec c w).

(** ** Requests *)

(** The eight handlers that the module registers on the two routes. *)
Inductive request : Type :=
| POST_threads (board : string) (text delete_password : option string)
| GET_threads (board : string)
| DELETE_threads (delete_password : option string) (thread_id : ObjectId)
| PUT_threads (thread_id report_id : option ObjectId)
| POST_replies (board : string) (text delete_password : option string)
    (thread_id : ObjectId)
| GET_replies (thread_id : ObjectId)
| DELETE_replies (delete_password : option string) (thread_id reply_id : ObjectId)
| PUT_replies (reply_id thread_id : ObjectId).

Definition handle {E : Externals} (r : request) : M response :=
  match r with
  | POST_threads board text delete_password => threads_post board text delete_password
  | GET_threads board => threads_get board
  | DELETE_threads delete_password thread_id => threads_delete delete_password thread_id
  | PUT_threads thread_id report_id => threads_put thread_id report_id
  | POST_replies board text delete_password thread_id =>
      replies_post board text delete_password thread_id
  | GET_replies thread_id => replies_get thread_id
  | DELETE_replies delete_password thread_id reply_id =>
      replies_delete delete_password thread_id reply_id
  | PUT_replies reply_id thread_id => replies_put reply_id thread_id
  end.

(** Requests served one after the other. *)
Fixpoint serve {E : Externals} (rs : list request) (w : World) : World :=
  match rs with
  | [] => w
  | r :: rs' => serve rs' (exec (handle r) w)
  end.

(** The [_id] of an emitted thread or reply. *)
Definition id_of_view (j : json) : option ObjectId :=
  match j with
  | JObj o =>
      match obj_get "_id" o with
      | Some (JOid id) => Some id
      | _ => None
      end
  | _ => None
  end.

(** The replies attached to an emitted thread. *)
Definition view_replies (j : json) : list json :=
  match j with
  | JObj o => reply_views o
  | _ => []
  end.

(** The value of a property of an emitted thread. *)
Definition view_get (k : string) (j : json) : option json :=
  match j with
  | JObj o => obj_get k o
  | _ => None
  end.

(** Two worlds give the same answers to the two GET handlers. *)
Definition same_reads (w w' : World) : Prop :=
  (forall board, outcome (threads_get board) w' = outcome (threads_get board) w)
  /\ (forall thread_id,
        outcome (replies_get thread_id) w' = outcome (replies_get thread_id) w).

(** ** The writes of the handlers *)

(** One write to the store, as a handler makes it: a board of a new,
    non-empty name without threads; a thread id pushed on a board; a thread
    that passed validation, without replies; a reply that passed validation,
    under an id not in use; the id and date of a stored reply pushed on a
    thread; a thread deleted; a thread or reply reported; a reply redacted. *)
Inductive write_step (d : Db) : Db -> Prop :=
| ws_add_board (b : Board.t) :
    find (fun x => String.eqb (Board.name x) (Board.name b)) (boards d) = None ->
    Board.name b <> "" ->
    Board.threads b = [] ->
    write_step d (set_boards (boards d ++ [b]) d)
| ws_push_thread (id tid : ObjectId) :
    write_step d
      (set_boards (updateOne Board._id id (Board.push_thread tid) (boards d)) d)
| ws_add_thread (t : Thread.t) :
    Thread.text t <> "" ->
    Thread.delete_password t <> "" ->
    Thread.replies t = [] ->
    write_step d (set_threads (threads d ++ [t]) d)
| ws_add_reply (r : Reply.t) :
    Reply.delete_password r <> "" ->
    findById Reply._id (Reply._id r) (replies d) = None ->
    write_step d (set_replies (replies d ++ [r]) d)
| ws_push_reply (tid : ObjectId) (r : Reply.t) :
    findById Reply._id (Reply._id r) (replies d) = Some r ->
    write_step d
      (set_threads
         (updateOne Thread._id tid
            (Thread.push_reply (Reply._id r) (Reply.created_on r)) (threads d)) d)
| ws_delete_thread (tid : ObjectId) :
    write_step d (set_threads (deleteOne Thread._id tid (threads d)) d)
| ws_report_thread (tid : ObjectId) :
    write_step d
      (set_threads (updateOne Thread._id tid (Thread.set_reported true) (threads d)) d)
| ws_report_reply (rid : ObjectId) :
    write_step d
      (set_replies (updateOne Reply._id rid (Reply.set_reported true) (replies d)) d)
| ws_redact_reply (rid : ObjectId) :
    write_step d
      (set_replies (updateOne Reply._id rid (Reply.set_text "[deleted]") (replies d)) d).

(** Any number of writes, one after the other. *)
Inductive writes (d : Db) : Db -> Prop :=
| writes_none : writes d d
| writes_more (d1 d2 : Db) : writes d d1 -> write_step d1 d2 -> writes d d2.

(** At most one board of each name, and no board without a name. *)
Definition board_names_ok (d : Db) : Prop :=
  NoDup (map Board.name (boards d))
  /\ Forall (fun b => Board.name b <> "") (boards d).

(** What validation leaves in the store: no thread without text, no thread
    or reply without digest. *)
Definition documents_valid (d : Db) : Prop :=
  Forall (fun t => Thread.text t <> "" /\ Thread.delete_password t <> "") (threads d)
  /\ Forall (fun r => Reply.delete_password r <> "") (replies d).

(** Every reply id on a thread refers to a stored reply. *)
Definition replies_resolve (d : Db) : Prop :=
  forall t, In t (threads d) ->
    Forall (fun id => findById Reply._id id (replies d) <> None) (Thread.replies t).

(** A thread with replies was bumped at the creation of the last one. *)
Definition bumped_by_last_reply (d : Db) : Prop :=
  forall t earlier rid,
    In t (threads d) ->
    Thread.replies t = earlier ++ [rid] ->
    exists r,
      findById Reply._id rid (replies d) = Some r
      /\ Thread.bumped_on t = Reply.created_on r.

(** What may become of a stored reply: only its text, to the marker, and
    its reported flag, to true, can change. *)
Definition reply_evolves (r r' : Reply.t) : Prop :=
  Reply._id r' = Reply._id r
  /\ Reply.created_on r' = Reply.created_on r
  /\ Reply.delete_password r' = Reply.delete_password r
  /\ (Reply.text r' = Reply.text r \/ Reply.text r' = Some "[deleted]")
  /\ (Reply.reported r = true -> Reply.reported r' = true).

(** What may become of a stored board: its thread list can grow at the
    end. *)
Definition board_evolves (b b' : Board.t) : Prop :=
  Board._id b' = Board._id b
  /\ Board.name b' = Board.name b
  /\ exists more, Board.threads b' = Board.threads b ++ more.


(** What may become of a stored thread: replies are pushed on it, with
    [bumped_on], and its reported flag can be set. *)
Definition thread_evolves (t t' : Thread.t) : Prop :=
  Thread._id t' = Thread._id t
  /\ Thread.text t' = Thread.text t
  /\ Thread.created_on t' = Thread.created_on t
  /\ Thread.delete_password t' = Thread.delete_password t
  /\ (exists more, Thread.replies t' = Thread.replies t ++ more)
  /\ (Thread.reported t = true -> Thread.reported t' = true).

(** * Properties *)

(** ** Collections *)

Section CollectionFacts.
Context {D : Type} (id_of : D -> ObjectId).

Lemma findById_id (id : ObjectId) (c : list D) (d : D) :
  findById id_of id c = Some d -> id_of d = id.
Proof.
  unfold findById. intros H. apply find_some in H.
  destruct H as [_ H]. now apply Nat.eqb_eq.
Qed.

Lemma findById_In (id : ObjectId) (c : list D) (d : D) :
  findById id_of id c = Some d -> In d c.
Proof.
  unfold findById. intros H. now apply find_some in H.
Qed.

Lemma findById_split (id : ObjectId) (c : list D) (d : D) :
  findById id_of id c = Some d ->
  exists l1 l2, c = l1 ++ d :: l2 /\ findById id_of id l1 = None.
Proof.
  induction c as [|x c IH]; simpl; [discriminate|].
  destruct (Nat.eqb (id_of x) id) eqn:Hx.
  - intros [= ->]. exists [], c. split; reflexivity.
  - intros H. destruct (IH H) as (l1 & l2 & -> & Hl1).
    exists (x :: l1), l2. split; [reflexivity|]. simpl. now rewrite Hx.
Qed.

Lemma updateOne_split (id : ObjectId) (f : D -> D) (l1 l2 : list D) (d : D) :
  findById id_of id l1 = None -> id_of d = id ->
  updateOne id_of id f (l1 ++ d :: l2) = l1 ++ f d :: l2.
Proof.
  intros Hl1 Hd. induction l1 as [|x l1 IH]; simpl in *.
  - apply Nat.eqb_eq in Hd. now rewrite Hd.
  - destruct (Nat.eqb (id_of x) id); [discriminate|]. now rewrite IH.
Qed.

Lemma updateOne_absent (id : ObjectId) (f : D -> D) (c : list D) :
  findById id_of id c = None -> updateOne id_of id f c = c.
Proof.
  induction c as [|x c IH]; simpl; [reflexivity|].
  destruct (Nat.eqb (id_of x) id); [discriminate|].
  intros H. now rewrite IH.
Qed.

Lemma findById_updateOne_same (id : ObjectId) (f : D -> D) (c : list D) (d : D) :
  (forall x, id_of (f x) = id_of x) ->
  findById id_of id c = Some d ->
  findById id_of id (updateOne id_of id f c) = Some (f d).
Proof.
  intros Hf. induction c as [|x c IH]; simpl; [discriminate|].
  destruct (Nat.eqb (id_of x) id) eqn:Hx.
  - intros [= ->]. simpl. now rewrite Hf, Hx.
  - intros H. simpl. rewrite Hx. now apply IH.
Qed.

Lemma findById_updateOne_other (id id' : ObjectId) (f : D -> D) (c : list D) :
  (forall x, id_of (f x) = id_of x) ->
  id' <> id ->
  findById id_of id' (updateOne id_of id f c) = findById id_of id' c.
Proof.
  intros Hf Hne. induction c as [|x c IH]; simpl; [reflexivity|].
  destruct (Nat.eqb (id_of x) id) eqn:Hx; simpl.
  - rewrite Hf. apply Nat.eqb_eq in Hx. rewrite Hx.
    destruct (Nat.eqb id id') eqn:Hi; [|reflexivity].
    apply Nat.eqb_eq in Hi. congruence.
  - now rewrite IH.
Qed.

Lemma map_id_updateOne (id : ObjectId) (f : D -> D) (c : list D) :
  (forall x, id_of (f x) = id_of x) ->
  map id_of (updateOne id_of id f c) = map id_of c.
Proof.
  intros Hf. induction c as [|x c IH]; simpl; [reflexivity|].
  destruct (Nat.eqb (id_of x) id); simpl; now rewrite ?Hf, ?IH.
Qed.

Lemma findById_absent (id : ObjectId) (c : list D) :
  ~ In id (map id_of c) -> findById id_of id c = None.
Proof.
  intros H. destruct (findById id_of id c) as [d|] eqn:Hd; [|reflexivity].
  exfalso. apply H. rewrite <- (findById_id _ _ _ Hd).
  apply in_map. eapply findById_In; eauto.
Qed.

Lemma deleteOne_incl (id : ObjectId) (c : list D) :
  incl (map id_of (deleteOne id_of id c)) (map id_of c).
Proof.
  induction c as [|x c IH]; simpl; [apply incl_refl|].
  destruct (Nat.eqb (id_of x) id); simpl.
  - apply incl_tl, incl_refl.
  - now apply incl_cons; [left | apply incl_tl].
Qed.

Lemma deleteOne_NoDup (id : ObjectId) (c : list D) :
  NoDup (map id_of c) -> NoDup (map id_of (deleteOne id_of id c)).
Proof.
  induction c as [|x c IH]; simpl; [trivial|].
  intros H. inversion H as [|? ? Hx Hc]; subst.
  destruct (Nat.eqb (id_of x) id); simpl; [assumption|].
  constructor; [|now apply IH].
  intros Hin. apply Hx. now apply (deleteOne_incl id c).
Qed.

(** With unique ids, the deleted document can no longer be found. *)
Lemma findById_deleteOne (id : ObjectId) (c : list D) :
  NoDup (map id_of c) -> findById id_of id (deleteOne id_of id c) = None.
Proof.
  induction c as [|x c IH]; simpl; [reflexivity|].
  intros H. inversion H as [|? ? Hx Hc]; subst.
  destruct (Nat.eqb (id_of x) id) eqn:E0; simpl.
  - apply Nat.eqb_eq in E0. subst id. now apply findById_absent.
  - rewrite E0. now apply IH.
Qed.

End CollectionFacts.

(** ** Documents and field selection *)

Lemma Thread_document_default (t : Thread.t) :
  doc (Thread_document None t) =
  [("_id", JOid (Thread._id t));
   ("text", JStr (Thread.text t));
   ("created_on", JDate (Thread.created_on t));
   ("bumped_on", JDate (Thread.bumped_on t));
   ("replies", JArr (map JOid (Thread.replies t)))].
Proof. reflexivity. Qed.

Lemma Reply_document_default (r : Reply.t) :
  doc (Reply_document None r) =
  ("_id", JOid (Reply._id r))
  :: match Reply.text r with Some s => [("text", JStr s)] | None => [] end
  ++ [("created_on", JDate (Reply.created_on r))].
Proof. destruct r as [i [s|] c p b]; reflexivity. Qed.

(** The selection ['delete_password'] brings the digest of a thread. *)
Lemma Thread_document_password (t : Thread.t) :
  obj_get "delete_password" (doc (Thread_document (Some ["delete_password"]) t))
  = Some (JStr (Thread.delete_password t)).
Proof. reflexivity. Qed.

(** The selection ['delete_password text'] brings the digest of a reply. *)
Lemma Reply_document_password (r : Reply.t) :
  obj_get "delete_password"
    (doc (Reply_document (Some ["delete_password"; "text"]) r))
  = Some (JStr (Reply.delete_password r)).
Proof. destruct r as [i [s|] c p b]; reflexivity. Qed.

Lemma reply_view_hides_private (r : Reply.t) :
  hides_private (doc (Reply_document None r)) = true.
Proof. destruct r as [i [s|] c p b]; reflexivity. Qed.

Lemma reply_view_id (r r' : Reply.t) :
  reply_view r = reply_view r' -> Reply._id r = Reply._id r'.
Proof.
  unfold reply_view. rewrite !Reply_document_default. intros H.
  now injection H.
Qed.

Lemma with_db_id (f : Db -> Db) (w : World) :
  f (db w) = db w -> with_db f w = w.
Proof. destruct w as [d o t s]. unfold with_db. simpl. now intros ->. Qed.

Lemma set_threads_id (d : Db) : set_threads (threads d) d = d.
Proof. now destruct d. Qed.

Lemma set_replies_id (d : Db) : set_replies (replies d) d = d.
Proof. now destruct d. Qed.

Section Properties.
Context {E : Externals}.

(** ** Deleting a thread *)

(** C2. For an existing thread, DELETE /api/threads/:board with a password
    that bcrypt does not verify against the stored digest answers
    400 'incorrect password' and leaves the whole world, hence the thread
    record, as it was.  With a password that verifies, it answers
    200 'success' and removes the thread from the collection; the thread can
    no longer be found, and a following GET /api/replies/:board for the
    same id finds no thread: it sends [null] in place of a thread. *)
Theorem threads_delete_password (w : World) (thread_id : ObjectId) (t : Thread.t)
    (password : string) :
  wf w ->
  findById Thread._id thread_id (threads (db w)) = Some t ->
  (bcrypt_compare password (Thread.delete_password t) = false ->
   threads_delete (Some password) thread_id w
   = (Ok (Send 400 (JStr "incorrect password")), w))
  /\
  (bcrypt_compare password (Thread.delete_password t) = true ->
   let w' := exec (threads_delete (Some password) thread_id) w in
   outcome (threads_delete (Some password) thread_id) w
   = Ok (Send 200 (JStr "success"))
   /\ threads (db w') = deleteOne Thread._id thread_id (threads (db w))
   /\ findById Thread._id thread_id (threads (db w')) = None
   /\ replies_get thread_id w' = (Ok (Send 200 JNull), w')).
Proof.
  intros Hwf Hfind.
  assert (Hid : Thread._id t = thread_id) by (eapply findById_id; eauto).
  unfold threads_delete, exec, outcome, bind, Thread_findOne, read, compare.
  rewrite Hfind. cbn [option_map]. rewrite Thread_document_password.
  unfold ret, write. cbn [doc_id Thread_document].
  split; intros Hcmp; rewrite Hcmp; [reflexivity|].
  cbn [fst snd]. rewrite Hid.
  assert (Hgone : findById Thread._id thread_id
            (deleteOne Thread._id thread_id (threads (db w))) = None)
    by (apply findById_deleteOne, Hwf).
  repeat split; try assumption.
  unfold replies_get, bind, Thread_findOne_populated, read, ret.
  cbn [db with_db threads set_threads]. now rewrite Hgone.
Qed.

(** ** Redacting a reply *)

Lemma reply_views_populate (rs : list Reply.t) (t : Thread.t) :
  reply_views (populate rs (doc (Thread_document None t)))
  = flat_map (populate_reply rs) (map JOid (Thread.replies t)).
Proof. reflexivity. Qed.

Lemma populate_redacted (rs : list Reply.t) (reply_id : ObjectId) (r : Reply.t)
    (ids : list ObjectId) :
  findById Reply._id reply_id rs = Some r ->
  Forall2 (redacted_or_same r)
    (flat_map (populate_reply rs) (map JOid ids))
    (flat_map (populate_reply
                 (updateOne Reply._id reply_id (Reply.set_text "[deleted]") rs))
       (map JOid ids)).
Proof.
  intros Hr.
  assert (Hrid : Reply._id r = reply_id) by (eapply findById_id; eauto).
  induction ids as [|id ids IH]; [constructor|].
  cbn [map flat_map]. apply Forall2_app; [|exact IH].
  unfold populate_reply.
  destruct (Nat.eq_dec id reply_id) as [->|Hne].
  - rewrite Hr, (findById_updateOne_same Reply._id _ _ _ r) by (trivial || reflexivity).
    constructor; [|constructor]. left. split; reflexivity.
  - rewrite findById_updateOne_other by (trivial || reflexivity).
    destruct (findById Reply._id id rs) as [x|] eqn:Hx; [|constructor].
    constructor; [|constructor]. right. split; [|reflexivity].
    intros Heq. apply reply_view_id in Heq.
    apply findById_id in Hx. congruence.
Qed.

Lemma Forall2_redacted_In (r : Reply.t) (xs ys : list json) :
  Forall2 (redacted_or_same r) xs ys ->
  In (reply_view r) xs -> In (reply_view (Reply.set_text "[deleted]" r)) ys.
Proof.
  induction 1 as [|a b xs ys Hab _ IH]; simpl; [tauto|].
  intros [Ha|Hin]; [|right; now apply IH].
  left. destruct Hab as [[_ Hb]|[Hne _]]; [now symmetry | congruence].
Qed.

(** C3. For an existing reply, DELETE /api/replies/:board with a password
    that bcrypt verifies against the digest of the reply answers
    200 'success' and rewrites that one record of the replies collection with
    its text set to '[deleted]': its id, creation date, digest and reported
    flag are the same, the records before and after it are the same, and the
    boards and threads collections are the same.  Every thread that
    GET /api/replies/:board returned is still returned, with as many replies
    in the same places: the redacted reply shows the marker where it stood,
    the others are unchanged. *)
Theorem replies_delete_redacts (w : World) (thread_id reply_id : ObjectId)
    (r : Reply.t) (password : string) :
  findById Reply._id reply_id (replies (db w)) = Some r ->
  bcrypt_compare password (Reply.delete_password r) = true ->
  let w' := exec (replies_delete (Some password) thread_id reply_id) w in
  let r' := Reply.set_text "[deleted]" r in
  outcome (replies_delete (Some password) thread_id reply_id) w
  = Ok (Send 200 (JStr "success"))
  /\ (Reply.text r' = Some "[deleted]"
      /\ Reply._id r' = Reply._id r
      /\ Reply.created_on r' = Reply.created_on r
      /\ Reply.delete_password r' = Reply.delete_password r
      /\ Reply.reported r' = Reply.reported r)
  /\ (exists l1 l2,
        replies (db w) = l1 ++ r :: l2 /\ replies (db w') = l1 ++ r' :: l2)
  /\ boards (db w') = boards (db w)
  /\ threads (db w') = threads (db w)
  /\ (forall id o,
        replies_get id w = (Ok (Send 200 (JObj o)), w) ->
        exists o',
          replies_get id w' = (Ok (Send 200 (JObj o')), w')
          /\ Forall2 (redacted_or_same r) (reply_views o) (reply_views o')
          /\ (In (reply_view r) (reply_views o) ->
              In (reply_view r') (reply_views o'))).
Proof.
  intros Hfind Hcmp.
  assert (Hid : Reply._id r = reply_id) by (eapply findById_id; eauto).
  subst reply_id.
  unfold replies_delete, exec, outcome, bind, Thread_findOne, Reply_findOne,
    read, compare.
  rewrite Hfind. cbn [option_map]. rewrite Reply_document_password.
  unfold ret, write. rewrite Hcmp. cbn [fst snd doc_id Reply_document].
  split; [reflexivity|]. split; [repeat split|].
  split.
  { destruct (findById_split _ _ _ _ Hfind) as (l1 & l2 & Hc & Hl1).
    exists l1, l2. split; [exact Hc|].
    cbn [db with_db replies set_replies]. rewrite Hc.
    now apply updateOne_split. }
  split; [reflexivity|]. split; [reflexivity|].
  intros id o. unfold replies_get, bind, Thread_findOne_populated, read, ret.
  cbn [db with_db threads replies set_replies].
  destruct (findById Thread._id id (threads (db w))) as [t|]; cbn [option_map];
    [|discriminate].
  intros [= <-]. eexists. split; [reflexivity|].
  rewrite !reply_views_populate.
  assert (HF := populate_redacted (replies (db w)) _ r (Thread.replies t) Hfind).
  split; [exact HF|]. now apply Forall2_redacted_In.
Qed.


(** ** Ids that refer to nothing *)

(** C7, as the code has it.  For an id that refers to no stored thread,
    GET /api/replies/:board finds nothing and answers with [null] in place
    of a thread, under status 200: the not-found result of the read.
    PUT /api/threads/:board with that id, and PUT /api/replies/:board with an
    id that refers to no stored reply, return no outcome: the lookup gives
    [null], calling [save] on it raises a TypeError that nothing handles, no
    response is sent, and the world is as it was. *)
Theorem missing_id_outcomes (w : World) (id : ObjectId) :
  (findById Thread._id id (threads (db w)) = None ->
   replies_get id w = (Ok (Send 200 JNull), w)
   /\ (forall thread_id report_id,
         js_or thread_id report_id = Some id ->
         threads_put thread_id report_id w = (Throw TypeError, w)))
  /\ (findById Reply._id id (replies (db w)) = None ->
      forall thread_id, replies_put id thread_id w = (Throw TypeError, w)).
Proof.
  split.
  - intros Hnone. split.
    + unfold replies_get, bind, Thread_findOne_populated, read, ret.
      now rewrite Hnone.
    + intros thread_id report_id Hor. unfold threads_put. rewrite Hor.
      unfold Thread_findByIdAndUpdate_reported, bind, Thread_findOne, read, write, ret, throw.
      rewrite Hnone. cbn [option_map]. f_equal.
      apply with_db_id. rewrite updateOne_absent by exact Hnone.
      apply set_threads_id.
  - intros Hnone thread_id.
    unfold replies_put, Reply_findByIdAndUpdate_reported, bind, Reply_findOne,
      read, write, ret, throw.
    rewrite Hnone. cbn [option_map]. f_equal.
    apply with_db_id. rewrite updateOne_absent by exact Hnone.
    apply set_replies_id.
Qed.

(** ** The board registry *)

Lemma find_app_last {A : Type} (f : A -> bool) (l : list A) (x : A) :
  find f l = None -> f x = true -> find f (l ++ [x]) = Some x.
Proof.
  intros Hl Hx. induction l as [|y l IH]; simpl in *.
  - now rewrite Hx.
  - destruct (f y); [discriminate|]. now apply IH.
Qed.

Lemma validate_name (name : string) :
  name <> "" -> validate boardSchema [("name", Some name)] = [].
Proof.
  intros Hne. unfold validate. simpl.
  destruct (String.eqb_spec name ""); [contradiction|reflexivity].
Qed.

(** What [getBoard] does for a board name of the route: the board found,
    or a new empty board added at the end of the collection. *)
Lemma getBoard_run (w : World) (name : string) :
  name <> "" ->
  match find (fun b => String.eqb (Board.name b) name) (boards (db w)) with
  | Some b => getBoard name w = (Ok b, w)
  | None =>
      let b := Board.mk (oids w) name [] in
      getBoard name w
      = (Ok b, {| db := set_boards (boards (db w) ++ [b]) (db w);
                  oids := S (oids w); ticks := ticks w; salts := salts w |})
  end.
Proof.
  intros Hne. unfold getBoard, bind, Board_findOne, read.
  destruct (find _ (boards (db w))) as [b|]; [reflexivity|].
  unfold Board_create, bind, new_ObjectId. rewrite (validate_name _ Hne).
  reflexivity.
Qed.

(** C9. For a board name of the route (a route parameter is not empty),
    [getBoard] called twice in a row returns the same board record both
    times.  The first call returns the first stored board of that name and
    leaves the world as it was, or, when there is none, a new board of that
    name without threads, which it adds at the end of the boards; either way
    the record is then the stored board found under the name.  The second
    call finds that record, returns it unchanged and leaves the world as the
    first call left it. *)
Theorem getBoard_twice (w : World) (name : string) :
  name <> "" ->
  exists b,
    outcome (getBoard name) w = Ok b
    /\ getBoard name (exec (getBoard name) w) = (Ok b, exec (getBoard name) w)
    /\ Board.name b = name
    /\ find (fun x => String.eqb (Board.name x) name)
         (boards (db (exec (getBoard name) w))) = Some b
    /\ match find (fun x => String.eqb (Board.name x) name) (boards (db w)) with
       | Some found => b = found /\ exec (getBoard name) w = w
       | None =>
           b = Board.mk (oids w) name []
           /\ boards (db (exec (getBoard name) w)) = boards (db w) ++ [b]
           /\ threads (db (exec (getBoard name) w)) = threads (db w)
           /\ replies (db (exec (getBoard name) w)) = replies (db w)
       end.
Proof.
  intros Hne. unfold outcome, exec.
  generalize (getBoard_run w name Hne).
  destruct (find _ (boards (db w))) as [b|] eqn:Hfind.
  - intros ->. exists b. cbn [fst snd]. split; [reflexivity|].
    generalize (getBoard_run w name Hne). rewrite Hfind. intros ->.
    split; [reflexivity|]. split.
    + apply find_some in Hfind. now apply String.eqb_eq.
    + split; [reflexivity | split; reflexivity].
  - cbn zeta. intros ->. eexists. cbn [fst snd]. split; [reflexivity|].
    assert (Hadded : find (fun x => String.eqb (Board.name x) name)
                       (boards (db w) ++ [Board.mk (oids w) name []])
                     = Some (Board.mk (oids w) name [])).
    { apply find_app_last; [exact Hfind|]. cbn. apply String.eqb_refl. }
    split.
    + match goal with |- getBoard name ?w1 = _ =>
        generalize (getBoard_run w1 name Hne) end.
      cbn [db boards set_boards]. now rewrite Hadded.
    + split; [reflexivity|]. split; [exact Hadded|]. repeat split.
Qed.

(** ** Creating threads and replies *)

Lemma validate_thread (text digest : string) :
  text <> "" -> digest <> "" ->
  validate threadSchema [("text", Some text); ("delete_password", Some digest)] = [].
Proof.
  intros Ht Hd. unfold validate. simpl.
  destruct (String.eqb_spec text ""); [contradiction|].
  destruct (String.eqb_spec digest ""); [contradiction|reflexivity].
Qed.


Lemma validate_reply (text : option string) (digest : string) :
  digest <> "" ->
  validate replySchema [("text", text); ("delete_password", Some digest)] = [].
Proof.
  intros Hd. unfold validate. simpl.
  destruct (String.eqb_spec digest ""); [contradiction|reflexivity].
Qed.

(** C6, as the code has it.  A thread created by POST /api/threads/:board
    has [created_on] and [bumped_on] set from two successive calls of
    [Date.now], so they are equal when the two readings are; after a
    POST /api/replies/:board on an existing thread, the [bumped_on] of the
    thread is the [created_on] of the reply just stored, which is the last
    of its replies. *)
Theorem creation_dates (w : World) (board : string) (password : string) :
  (forall text,
     board <> "" -> text <> "" ->
     let w' := exec (threads_post board (Some text) (Some password)) w in
     outcome (threads_post board (Some text) (Some password)) w
     = Ok (Redirect 302 (BoardPage board))
     /\ exists t,
          threads (db w') = threads (db w) ++ [t]
          /\ Thread.created_on t = Date_now (ticks w)
          /\ Thread.bumped_on t = Date_now (S (ticks w))
          /\ (Date_now (S (ticks w)) = Date_now (ticks w) ->
              Thread.bumped_on t = Thread.created_on t))
  /\ (forall text thread_id t,
        findById Thread._id thread_id (threads (db w)) = Some t ->
        let w' := exec (replies_post board text (Some password) thread_id) w in
        outcome (replies_post board text (Some password) thread_id) w
        = Ok (Redirect 302 (ThreadPage board thread_id))
        /\ exists r,
             replies (db w') = replies (db w) ++ [r]
             /\ Reply.created_on r = Date_now (ticks w)
             /\ findById Thread._id thread_id (threads (db w'))
                = Some (Thread.push_reply (Reply._id r) (Reply.created_on r) t)
             /\ Thread.bumped_on
                  (Thread.push_reply (Reply._id r) (Reply.created_on r) t)
                = Reply.created_on r).
Proof.
  split.
  - intros text Hb Ht.
    unfold threads_post, exec, outcome, hash, bind.
    match goal with |- context [getBoard board ?w1] =>
      generalize (getBoard_run w1 board Hb) end.
    cbn [db boards].
    destruct (find _ (boards (db w))) as [b|]; cbn zeta; intros ->;
      unfold Thread_create, bind, new_ObjectId, now, write, ret;
      cbn [oids ticks salts db];
      rewrite (validate_thread _ _ Ht (bcrypt_hash_nonempty _ _ _));
      cbn [fst snd with_db db threads set_threads set_boards];
      (split; [reflexivity|]); eexists; (split; [reflexivity|]);
      cbn [Thread.created_on Thread.bumped_on]; auto.
  - intros text thread_id t Hfind.
    unfold replies_post, exec, outcome, hash, bind, Thread_findOne, read,
      Reply_create, bind, new_ObjectId, now, write, ret.
    cbn [oids ticks salts db]. rewrite Hfind. cbn [option_map].
    rewrite (validate_reply _ _ (bcrypt_hash_nonempty _ _ _)).
    cbn [fst snd with_db db threads replies set_threads set_replies
         doc_id Thread_document Reply._id Reply.created_on].
    split; [reflexivity|]. eexists. split; [reflexivity|].
    cbn [Reply._id Reply.created_on].
    split; [reflexivity|]. split; [|reflexivity].
    rewrite (findById_id _ _ _ _ Hfind).
    now apply findById_updateOne_same.
Qed.


(** ** Listing the threads of a board *)

Lemma insert_desc_Forall (P : Thread.t -> Prop) (t : Thread.t) (l : list Thread.t) :
  P t -> Forall P l -> Forall P (insert_desc t l).
Proof.
  intros Ht Hl. induction Hl as [|x l Hx Hl IH]; simpl.
  - now constructor.
  - destruct (Thread.bumped_on t <? Thread.bumped_on x)%Z; auto.
Qed.

Lemma insert_desc_sorted (t : Thread.t) (l : list Thread.t) :
  StronglySorted bumped_after l -> StronglySorted bumped_after (insert_desc t l).
Proof.
  induction 1 as [|x l Hs IH Hx]; simpl.
  - repeat constructor.
  - destruct (Thread.bumped_on t <? Thread.bumped_on x)%Z eqn:Hlt.
    + constructor; [exact IH|].
      apply insert_desc_Forall; [|exact Hx].
      unfold bumped_after. apply Z.ltb_lt in Hlt. lia.
    + apply Z.ltb_ge in Hlt.
      constructor; [now constructor|].
      constructor; [exact Hlt|].
      eapply Forall_impl; [|exact Hx].
      unfold bumped_after. intros y Hy. lia.
Qed.

Lemma sort_bumped_desc_sorted (l : list Thread.t) :
  StronglySorted bumped_after (sort_bumped_desc l).
Proof.
  induction l as [|t l IH]; simpl; [constructor|].
  now apply insert_desc_sorted.
Qed.

Lemma firstn_sorted (n : nat) (l : list Thread.t) :
  StronglySorted bumped_after l -> StronglySorted bumped_after (firstn n l).
Proof.
  intros Hs. revert n. induction Hs as [|x l Hs IH Hx]; intros [|n]; simpl;
    try constructor.
  - apply IH.
  - rewrite Forall_forall in *. intros y Hy. apply Hx.
    rewrite <- (firstn_skipn n l). apply in_or_app. now left.
Qed.

Lemma sorted_nth (l : list Thread.t) (i j : nat) (a b : Thread.t) :
  StronglySorted bumped_after l ->
  i < j -> nth_error l i = Some a -> nth_error l j = Some b ->
  bumped_after a b.
Proof.
  intros Hs. revert i j. induction Hs as [|x l Hs IH Hx]; intros i j Hij Ha Hb.
  - destruct i; discriminate.
  - destruct j as [|j]; [lia|]. simpl in Hb. destruct i as [|i]; simpl in Ha.
    + injection Ha as ->. rewrite Forall_forall in Hx. apply Hx.
      eapply nth_error_In; eauto.
    + apply (IH i j); auto. lia.
Qed.

(** The [forEach] of the GET handler never fails on what the query
    returns, and leaves [thread_list_view]. *)
Lemma preview_populated (rs : list Reply.t) (t : Thread.t) :
  preview (populate rs (doc (Thread_document None t)))
  = Ok (thread_list_view rs t).
Proof. reflexivity. Qed.

Lemma forEach_preview (rs : list Reply.t) (ts : list Thread.t) :
  forEach preview
    (map (fun t => populate rs (doc (Thread_document None t))) ts)
  = Ok (map (thread_list_view rs) ts).
Proof.
  induction ts as [|t ts IH]; [reflexivity|].
  cbn [map forEach]. now rewrite preview_populated, IH.
Qed.

Lemma threads_get_run (w : World) (board : string) :
  board <> "" ->
  exists ids,
    outcome (threads_get board) w
    = Ok (Send 200
            (JArr (map (fun t => JObj (thread_list_view (replies (db w)) t))
                     (recent_threads ids (db w))))).
Proof.
  intros Hb. unfold threads_get, outcome, bind.
  generalize (getBoard_run w board Hb).
  destruct (find _ (boards (db w))) as [b|]; cbn zeta; intros ->;
    unfold Thread_find_recent, read, lift, ret;
    cbn [db replies threads set_boards];
    rewrite forEach_preview; cbn [fst]; rewrite map_map;
    eexists; reflexivity.
Qed.

Lemma recent_threads_length (ids : list ObjectId) (d : Db) :
  length (recent_threads ids d) <= 10.
Proof. apply firstn_le_length. Qed.

Lemma recent_threads_sorted (ids : list ObjectId) (d : Db) :
  StronglySorted bumped_after (recent_threads ids d).
Proof. apply firstn_sorted, sort_bumped_desc_sorted. Qed.

(** C4. For a board name of the route, GET /api/threads/:board answers 200
    with an array of at most 10 threads, each with its [bumped_on] date, and
    a thread that comes before another in the array was bumped at the same
    time or later. *)
Theorem threads_get_recent (w : World) (board : string) :
  board <> "" ->
  exists views,
    outcome (threads_get board) w = Ok (Send 200 (JArr views))
    /\ length views <= 10
    /\ forall i j a b,
         i < j -> nth_error views i = Some a -> nth_error views j = Some b ->
         exists ta tb,
           bumped_on_of a = Some ta /\ bumped_on_of b = Some tb /\ (tb <= ta)%Z.
Proof.
  intros Hb. destruct (threads_get_run w board Hb) as [ids Hrun].
  eexists. split; [exact Hrun|]. split.
  - rewrite length_map. apply recent_threads_length.
  - intros i j a b Hij Ha Hb'.
    rewrite nth_error_map in Ha, Hb'.
    destruct (nth_error (recent_threads ids (db w)) i) as [ta|] eqn:Hi;
      [|discriminate].
    destruct (nth_error (recent_threads ids (db w)) j) as [tb|] eqn:Hj;
      [|discriminate].
    injection Ha as <-. injection Hb' as <-.
    exists (Thread.bumped_on ta), (Thread.bumped_on tb).
    split; [reflexivity|]. split; [reflexivity|].
    exact (sorted_nth _ _ _ _ _ (recent_threads_sorted ids (db w)) Hij Hi Hj).
Qed.

(** ** The preview of the replies *)

(** What [replies.slice(replies.length - 3)] keeps: the last three of
    three or more, everything of one or none, and of exactly two replies
    the last one only, as the start [-1] counts from the end. *)
Lemma js_slice_preview_length {A : Type} (xs : list A) :
  length (js_slice xs (Z.of_nat (length xs) - 3))
  = if Nat.eqb (length xs) 2 then 1 else Nat.min (length xs) 3.
Proof.
  unfold js_slice. rewrite length_skipn.
  destruct (Nat.eqb_spec (length xs) 2);
    destruct (Z.ltb_spec (Z.of_nat (length xs) - 3) 0); lia.
Qed.

Lemma js_slice_last_three {A : Type} (xs : list A) :
  3 <= length xs ->
  js_slice xs (Z.of_nat (length xs) - 3) = skipn (length xs - 3) xs.
Proof.
  intros Hlen. unfold js_slice.
  destruct (Z.ltb_spec (Z.of_nat (length xs) - 3) 0); [lia|].
  f_equal. lia.
Qed.

Lemma js_slice_of_two {A : Type} (a b : A) :
  js_slice [a; b] (Z.of_nat (length [a; b]) - 3) = [b].
Proof. reflexivity. Qed.

Lemma thread_list_view_replycount (rs : list Reply.t) (t : Thread.t) :
  replycount_of (JObj (thread_list_view rs t))
  = Some (Z.of_nat (length (flat_map (populate_reply rs) (map JOid (Thread.replies t))))).
Proof. reflexivity. Qed.

(** ** The private paths in the read views *)

Lemma populated_replies_hide_private (rs : list Reply.t) (js : list json) :
  forallb reply_hides_private (flat_map (populate_reply rs) js) = true.
Proof.
  induction js as [|j js IH]; [reflexivity|].
  cbn [flat_map]. rewrite forallb_app, IH, andb_true_r.
  unfold populate_reply. destruct j; try reflexivity.
  destruct (findById Reply._id id rs) as [r|]; [|reflexivity].
  cbn [forallb reply_hides_private]. now rewrite reply_view_hides_private.
Qed.

Lemma forallb_skipn {A : Type} (f : A -> bool) (n : nat) (l : list A) :
  forallb f l = true -> forallb f (skipn n l) = true.
Proof.
  rewrite !forallb_forall. intros H x Hx. apply H.
  rewrite <- (firstn_skipn n l). apply in_or_app. now right.
Qed.

Lemma thread_list_view_hides_private (rs : list Reply.t) (t : Thread.t) :
  view_hides_private (JObj (thread_list_view rs t)) = true.
Proof.
  unfold view_hides_private.
  change (hides_private (thread_list_view rs t)) with true.
  cbn [andb]. unfold thread_list_view, reply_views, js_slice. cbn [obj_get].
  cbn. apply forallb_skipn, populated_replies_hide_private.
Qed.

Lemma thread_detail_view_hides_private (rs : list Reply.t) (t : Thread.t) :
  view_hides_private (JObj (populate rs (doc (Thread_document None t)))) = true.
Proof.
  unfold view_hides_private. rewrite reply_views_populate.
  change (hides_private (populate rs (doc (Thread_document None t)))) with true.
  apply populated_replies_hide_private.
Qed.

(** C1. For a board name of the route, GET /api/threads/:board answers
    with an array of threads, and GET /api/replies/:board answers with
    [null] or with one thread; each of these threads is an object that has
    neither a [delete_password] nor a [reported] property, and each reply
    attached to it is an object that has neither of them. *)
Theorem read_views_hide_private (w : World) :
  (forall board,
     board <> "" ->
     exists views,
       outcome (threads_get board) w = Ok (Send 200 (JArr views))
       /\ forallb view_hides_private views = true)
  /\ (forall thread_id,
        outcome (replies_get thread_id) w = Ok (Send 200 JNull)
        \/ exists o,
             outcome (replies_get thread_id) w = Ok (Send 200 (JObj o))
             /\ view_hides_private (JObj o) = true).
Proof.
  split.
  - intros board Hb. destruct (threads_get_run w board Hb) as [ids Hrun].
    eexists. split; [exact Hrun|].
    apply forallb_forall. intros v Hv. apply in_map_iff in Hv.
    destruct Hv as (t & <- & _). apply thread_list_view_hides_private.
  - intros thread_id.
    unfold replies_get, outcome, bind, Thread_findOne_populated, read, ret.
    destruct (findById Thread._id thread_id (threads (db w))) as [t|];
      cbn [option_map fst]; [right | now left].
    eexists. split; [reflexivity|]. apply thread_detail_view_hides_private.
Qed.

(** ** The invariant of the store *)

Lemma ids_below_mono (n m : nat) (ids : list ObjectId) :
  n <= m -> ids_below n ids -> ids_below m ids.
Proof.
  intros Hnm. apply Forall_impl. intros id Hid. lia.
Qed.

Lemma NoDup_snoc_fresh (n : nat) (ids : list ObjectId) :
  NoDup ids -> ids_below n ids -> NoDup (ids ++ [n]).
Proof.
  intros Hnd Hb. induction Hnd as [|x ids Hx Hnd IH]; simpl.
  - repeat constructor. simpl. tauto.
  - inversion Hb as [|? ? Hlt Hb']; subst. constructor; [|now apply IH].
    rewrite in_app_iff. simpl. intros [Hin|[Heq|[]]]; [tauto | lia].
Qed.

Lemma ids_below_snoc (n : nat) (ids : list ObjectId) :
  ids_below n ids -> ids_below (S n) (ids ++ [n]).
Proof.
  intros Hb. apply Forall_app. split.
  - now apply (ids_below_mono n); [lia|].
  - repeat constructor.
Qed.

Lemma ids_below_incl (n : nat) (ids ids' : list ObjectId) :
  incl ids' ids -> ids_below n ids -> ids_below n ids'.
Proof.
  unfold ids_below. rewrite !Forall_forall. auto.
Qed.

Lemma wf_empty_world : wf empty_world.
Proof. split; simpl; constructor. Qed.

Lemma wf_mono (w w' : World) :
  db w' = db w -> oids w <= oids w' -> wf w -> wf w'.
Proof.
  intros Hdb Ho [H1 H2 H3 H4 H5 H6].
  split; rewrite Hdb; auto; now apply (ids_below_mono (oids w)).
Qed.

Lemma preserves_ret {A : Type} (a : A) : preserves (ret a).
Proof. intros w Hw. exact Hw. Qed.

Lemma preserves_throw {A : Type} (e : exn) : preserves (@throw A e).
Proof. intros w Hw. exact Hw. Qed.

Lemma preserves_read {A : Type} (f : World -> A) : preserves (read f).
Proof. intros w Hw. exact Hw. Qed.

Lemma preserves_lift {A : Type} (r : result A) : preserves (lift r).
Proof. intros w Hw. exact Hw. Qed.

Lemma preserves_bind {A B : Type} (c : M A) (k : A -> M B) :
  preserves c -> (forall a, preserves (k a)) -> preserves (bind c k).
Proof.
  intros Hc Hk w Hw. specialize (Hc w Hw). unfold exec, bind in *.
  destruct (c w) as [[a|e] w1]; simpl in *; [|exact Hc].
  now apply Hk.
Qed.

Lemma preserves_hash (data : option string) (rounds : nat) :
  preserves (hash data rounds).
Proof.
  intros w Hw. destruct data as [d|]; [|exact Hw].
  eapply wf_mono; [| |exact Hw]; reflexivity.
Qed.

Lemma preserves_compare (data : option string) (encrypted : option json) :
  preserves (compare data encrypted).
Proof.
  intros w Hw. unfold compare.
  destruct data; [|exact Hw]. destruct encrypted as [[]|]; exact Hw.
Qed.

Ltac wf_leaf n :=
  first
    [ assumption
    | apply NoDup_snoc_fresh; assumption
    | apply ids_below_snoc; assumption
    | apply (ids_below_mono n); [lia | assumption] ].

Lemma preserves_Board_create (name : string) : preserves (Board_create name).
Proof.
  intros w [H1 H2 H3 H4 H5 H6].
  unfold Board_create, exec, bind, new_ObjectId.
  destruct (validate _); cbn [snd ret write throw with_db db];
    split; cbn [with_db db oids boards threads replies set_boards];
    rewrite ?map_app; cbn [map Board._id];
    wf_leaf (oids w).
Qed.

Lemma preserves_Thread_create (text : option string) (digest : string) :
  preserves (Thread_create text digest).
Proof.
  intros w [H1 H2 H3 H4 H5 H6].
  unfold Thread_create, exec, bind, new_ObjectId, now.
  destruct text; destruct (validate _); cbn [snd ret write throw with_db db];
    split; cbn [with_db db oids boards threads replies set_threads];
    rewrite ?map_app; cbn [map Thread._id];
    wf_leaf (oids w).
Qed.

Lemma preserves_Reply_create (text : option string) (digest : string) :
  preserves (Reply_create text digest).
Proof.
  intros w [H1 H2 H3 H4 H5 H6].
  unfold Reply_create, exec, bind, new_ObjectId, now.
  destruct (validate _); cbn [snd ret write throw with_db db];
    split; cbn [with_db db oids boards threads replies set_replies];
    rewrite ?map_app; cbn [map Reply._id];
    wf_leaf (oids w).
Qed.

Lemma preserves_update_boards (id : ObjectId) (f : Board.t -> Board.t) :
  (forall b, Board._id (f b) = Board._id b) ->
  preserves (write (fun d => set_boards (updateOne Board._id id f (boards d)) d)).
Proof.
  intros Hf w [H1 H2 H3 H4 H5 H6].
  split; cbn [exec write snd with_db db oids boards threads replies set_boards];
    rewrite ?map_id_updateOne; auto.
Qed.

Lemma preserves_update_threads (id : ObjectId) (f : Thread.t -> Thread.t) :
  (forall t, Thread._id (f t) = Thread._id t) ->
  preserves (write (fun d => set_threads (updateOne Thread._id id f (threads d)) d)).
Proof.
  intros Hf w [H1 H2 H3 H4 H5 H6].
  split; cbn [exec write snd with_db db oids boards threads replies set_threads];
    rewrite ?map_id_updateOne; auto.
Qed.

Lemma preserves_update_replies (id : ObjectId) (f : Reply.t -> Reply.t) :
  (forall r, Reply._id (f r) = Reply._id r) ->
  preserves (write (fun d => set_replies (updateOne Reply._id id f (replies d)) d)).
Proof.
  intros Hf w [H1 H2 H3 H4 H5 H6].
  split; cbn [exec write snd with_db db oids boards threads replies set_replies];
    rewrite ?map_id_updateOne; auto.
Qed.

Lemma preserves_delete_thread (id : ObjectId) :
  preserves (write (fun d => set_threads (deleteOne Thread._id id (threads d)) d)).
Proof.
  intros w [H1 H2 H3 H4 H5 H6].
  split; cbn [exec write snd with_db db oids boards threads replies set_threads];
    auto using deleteOne_NoDup.
  eapply ids_below_incl; [apply deleteOne_incl | exact H5].
Qed.

Ltac preserves_step :=
  first
    [ apply preserves_Board_create | apply preserves_Thread_create
    | apply preserves_Reply_create
    | apply preserves_hash | apply preserves_compare
    | apply preserves_update_boards; reflexivity
    | apply preserves_update_threads; reflexivity
    | apply preserves_update_replies; reflexivity
    | apply preserves_delete_thread
    | apply preserves_ret | apply preserves_throw
    | apply preserves_read | apply preserves_lift
    | apply preserves_bind; [|intro]
    | match goal with
      | |- preserves (match ?x with _ => _ end) => destruct x
      | |- preserves (if ?x then _ else _) => destruct x
      end ].

Lemma preserves_getBoard (name : string) : preserves (getBoard name).
Proof. unfold getBoard, Board_findOne. repeat preserves_step. Qed.

(** Every handler keeps the ids of each collection unique and below the
    counter of ObjectIds. *)
Lemma handlers_preserve_wf :
  (forall board text password, preserves (threads_post board text password))
  /\ (forall board, preserves (threads_get board))
  /\ (forall password thread_id, preserves (threads_delete password thread_id))
  /\ (forall thread_id report_id, preserves (threads_put thread_id report_id))
  /\ (forall board text password thread_id,
        preserves (replies_post board text password thread_id))
  /\ (forall thread_id, preserves (replies_get thread_id))
  /\ (forall password thread_id reply_id,
        preserves (replies_delete password thread_id reply_id))
  /\ (forall reply_id thread_id, preserves (replies_put reply_id thread_id)).
Proof.
  repeat apply conj; intros;
    unfold threads_post, threads_get, threads_delete, threads_put,
      replies_post, replies_get, replies_delete, replies_put,
      Thread_findByIdAndUpdate_reported, Reply_findByIdAndUpdate_reported,
      Thread_findOne, Reply_findOne, Thread_find_recent,
      Thread_findOne_populated;
    repeat (preserves_step || apply preserves_getBoard).
Qed.

End Properties.

(** * The handlers on the board "general" *)

Lemma wf_world_again : wf world_again.
Proof.
  pose proof (@handlers_preserve_wf demo) as (Hpost & _ & _ & _ & Hreply & _).
  apply Hreply, Hreply, Hpost, wf_empty_world.
Qed.

Lemma wf_world_second : wf world_second.
Proof.
  pose proof (@handlers_preserve_wf demo) as (Hpost & _).
  apply Hpost, wf_world_again.
Qed.

(** C5, where the code departs from it.  The thread "hello" has the two
    replies "hi" and "again"; GET /api/threads/:board emits it with
    [replycount] 2 and with the reply "again" alone: [slice(2 - 3)] starts
    one element before the end. *)
Theorem preview_of_two_replies :
  map Thread.replies (threads (db world_again)) = [[2; 3]]
  /\ outcome (threads_get "general") world_again
     = Ok (Send 200
             (JArr
                [JObj
                   [("_id", JOid 1);
                    ("text", JStr "hello");
                    ("created_on", JDate 1000);
                    ("bumped_on", JDate 1003);
                    ("replies",
                     JArr [JObj [("_id", JOid 3);
                                 ("text", JStr "again");
                                 ("created_on", JDate 1003)]]);
                    ("replycount", JNum 2)]])).
Proof. split; reflexivity. Qed.

(** The two threads of "general" are listed most recently bumped first,
    without their private paths. *)
Lemma read_views_hide_private_witness :
  "general" <> ""
  /\ (exists views,
        outcome (threads_get "general") world_second = Ok (Send 200 (JArr views))
        /\ forallb view_hides_private views = true)
  /\ (outcome (replies_get 1) world_second = Ok (Send 200 JNull)
      \/ exists o,
           outcome (replies_get 1) world_second = Ok (Send 200 (JObj o))
           /\ view_hides_private (JObj o) = true).
Proof.
  assert (Hb : "general" <> "") by discriminate.
  split; [exact Hb|].
  destruct (read_views_hide_private world_second) as [Hlist Hone].
  split; [exact (Hlist "general" Hb) | exact (Hone 1)].
Defined.

Lemma threads_get_recent_witness :
  "general" <> ""
  /\ exists views,
       outcome (threads_get "general") world_second = Ok (Send 200 (JArr views))
       /\ length views <= 10
       /\ forall i j a b,
            i < j -> nth_error views i = Some a -> nth_error views j = Some b ->
            exists ta tb,
              bumped_on_of a = Some ta /\ bumped_on_of b = Some tb /\ (tb <= ta)%Z.
Proof.
  assert (Hb : "general" <> "") by discriminate.
  split; [exact Hb | exact (threads_get_recent world_second "general" Hb)].
Defined.

(** Deleting the thread "hello" with a wrong and with the right password. *)
Lemma threads_delete_password_witness :
  wf world_again
  /\ findById Thread._id 1 (threads (db world_again)) = Some thread_hello
  /\ bcrypt_compare (Externals := demo) "wrong" (Thread.delete_password thread_hello) = false
  /\ bcrypt_compare (Externals := demo) "p1" (Thread.delete_password thread_hello) = true
  /\ threads_delete (E := demo) (Some "wrong") 1 world_again
     = (Ok (Send 400 (JStr "incorrect password")), world_again)
  /\ outcome (threads_delete (E := demo) (Some "p1") 1) world_again
     = Ok (Send 200 (JStr "success"))
  /\ outcome (replies_get 1) (exec (threads_delete (E := demo) (Some "p1") 1) world_again)
     = Ok (Send 200 JNull).
Proof.
  assert (Hfind : findById Thread._id 1 (threads (db world_again)) = Some thread_hello)
    by reflexivity.
  assert (Hno : bcrypt_compare (Externals := demo) "wrong"
                  (Thread.delete_password thread_hello) = false) by reflexivity.
  assert (Hyes : bcrypt_compare (Externals := demo) "p1"
                   (Thread.delete_password thread_hello) = true) by reflexivity.
  repeat (split; [assumption || exact wf_world_again|]).
  destruct (threads_delete_password (E := demo) world_again 1 thread_hello "wrong"
              wf_world_again Hfind) as [Hwrong _].
  destruct (threads_delete_password (E := demo) world_again 1 thread_hello "p1"
              wf_world_again Hfind) as [_ Hright].
  destruct (Hright Hyes) as (Hok & _ & _ & Hget).
  split; [exact (Hwrong Hno)|]. split; [exact Hok|].
  unfold outcome. now rewrite Hget.
Defined.

(** Redacting the reply "hi" with its password. *)
Lemma replies_delete_redacts_witness :
  findById Reply._id 2 (replies (db world_again)) = Some reply_hi
  /\ bcrypt_compare (Externals := demo) "p2" (Reply.delete_password reply_hi) = true
  /\ outcome (replies_delete (E := demo) (Some "p2") 1 2) world_again
     = Ok (Send 200 (JStr "success"))
  /\ threads (db (exec (replies_delete (E := demo) (Some "p2") 1 2) world_again))
     = threads (db world_again).
Proof.
  assert (Hfind : findById Reply._id 2 (replies (db world_again)) = Some reply_hi)
    by reflexivity.
  assert (Hyes : bcrypt_compare (Externals := demo) "p2"
                   (Reply.delete_password reply_hi) = true) by reflexivity.
  split; [exact Hfind|]. split; [exact Hyes|].
  destruct (replies_delete_redacts (E := demo) world_again 1 2 reply_hi "p2" Hfind Hyes)
    as (Hok & _ & _ & _ & Hthreads & _).
  split; [exact Hok | exact Hthreads].
Defined.


(** The first thread of "general", and the first reply to it. *)
Lemma creation_dates_witness :
  "general" <> "" /\ "hello" <> ""
  /\ findById Thread._id 1 (threads (db world_hello))
     = Some (Thread.mk 1 "hello" 1000 1001 "$2b$p1" false [])
  /\ outcome (threads_post (E := demo) "general" (Some "hello") (Some "p1")) empty_world
     = Ok (Redirect 302 (BoardPage "general"))
  /\ outcome (replies_post (E := demo) "general" (Some "hi") (Some "p2") 1) world_hello
     = Ok (Redirect 302 (ThreadPage "general" 1)).
Proof.
  assert (Hb : "general" <> "") by discriminate.
  assert (Ht : "hello" <> "") by discriminate.
  assert (Hfind : findById Thread._id 1 (threads (db world_hello))
                  = Some (Thread.mk 1 "hello" 1000 1001 "$2b$p1" false []))
    by reflexivity.
  repeat (split; [assumption|]).
  split.
  - destruct (creation_dates (E := demo) empty_world "general" "p1") as [Hthread _].
    exact (proj1 (Hthread "hello" Hb Ht)).
  - destruct (creation_dates (E := demo) world_hello "general" "p2") as [_ Hreply].
    exact (proj1 (Hreply (Some "hi") 1 _ Hfind)).
Defined.

(** C6 as stated fails: with a clock that advances between the two
    defaults, the thread just created has a [bumped_on] later than its
    [created_on]. *)
Lemma thread_dates_differ :
  outcome (threads_post (E := demo) "general" (Some "hello") (Some "p1")) empty_world
  = Ok (Redirect 302 (BoardPage "general"))
  /\ exists t,
       threads (db (exec (threads_post (E := demo) "general" (Some "hello") (Some "p1"))
                      empty_world)) = [t]
       /\ Thread.created_on t = 1000%Z
       /\ Thread.bumped_on t = 1001%Z
       /\ Thread.bumped_on t <> Thread.created_on t.
Proof.
  split; [reflexivity|]. eexists. split; [reflexivity|].
  repeat split. discriminate.
Qed.

(** Ids that refer to nothing in [world_again]. *)
Lemma missing_id_outcomes_witness :
  findById Thread._id 7 (threads (db world_again)) = None
  /\ findById Reply._id 7 (replies (db world_again)) = None
  /\ replies_get 7 world_again = (Ok (Send 200 JNull), world_again)
  /\ threads_put (Some 7) None world_again = (Throw TypeError, world_again)
  /\ replies_put 7 1 world_again = (Throw TypeError, world_again).
Proof.
  assert (Ht : findById Thread._id 7 (threads (db world_again)) = None) by reflexivity.
  assert (Hr : findById Reply._id 7 (replies (db world_again)) = None) by reflexivity.
  repeat (split; [assumption|]).
  destruct (missing_id_outcomes world_again 7) as [Hthread Hreply].
  destruct (Hthread Ht) as [Hget Hput].
  split; [exact Hget|]. split; [exact (Hput (Some 7) None eq_refl)|].
  exact (Hreply Hr 1).
Defined.

(** C7 as stated fails: on the empty store, reporting the thread or the
    reply of id 0 returns no outcome at all, hence no NotFound: the handler
    ends on an unhandled TypeError and no response is sent.  Reading the
    thread of id 0 does respond, with [null]. *)
Lemma report_of_missing_id_throws :
  findById Thread._id 0 (threads (db empty_world)) = None
  /\ findById Reply._id 0 (replies (db empty_world)) = None
  /\ outcome (threads_put (Some 0) None) empty_world = Throw TypeError
  /\ outcome (replies_put 0 0) empty_world = Throw TypeError
  /\ ~ (exists resp, outcome (threads_put (Some 0) None) empty_world = Ok resp)
  /\ ~ (exists resp, outcome (replies_put 0 0) empty_world = Ok resp)
  /\ outcome (replies_get 0) empty_world = Ok (Send 200 JNull).
Proof.
  repeat split; try reflexivity; intros [resp H]; discriminate H.
Qed.



(** The board "general" resolved twice from the empty store. *)
Lemma getBoard_twice_witness :
  "general" <> ""
  /\ exists b,
       outcome (getBoard "general") empty_world = Ok b
       /\ getBoard "general" (exec (getBoard "general") empty_world)
          = (Ok b, exec (getBoard "general") empty_world)
       /\ Board.name b = "general"
       /\ find (fun x => String.eqb (Board.name x) "general")
            (boards (db (exec (getBoard "general") empty_world))) = Some b
       /\ b = Board.mk 0 "general" []
       /\ boards (db (exec (getBoard "general") empty_world)) = [b].
Proof.
  assert (Hb : "general" <> "") by discriminate.
  split; [exact Hb|].
  destruct (getBoard_twice empty_world "general" Hb)
    as (b & Hfirst & Hsecond & Hname & Hstored & Hnew & Hboards & _).
  exists b. repeat (split; [assumption|]). exact Hboards.
Defined.

(** * Further properties of the handlers *)

Section CollectionMore.
Context {D : Type} (id_of : D -> ObjectId).

Lemma findById_app_l (id : ObjectId) (c c' : list D) (d : D) :
  findById id_of id c = Some d -> findById id_of id (c ++ c') = Some d.
Proof.
  unfold findById. induction c as [|x c IH]; simpl; [discriminate|].
  destruct (Nat.eqb (id_of x) id); auto.
Qed.

Lemma findById_app_r (id : ObjectId) (c c' : list D) :
  findById id_of id c = None ->
  findById id_of id (c ++ c') = findById id_of id c'.
Proof.
  unfold findById. induction c as [|x c IH]; simpl; [reflexivity|].
  destruct (Nat.eqb (id_of x) id); [discriminate | auto].
Qed.

Lemma findById_fresh (n : nat) (c : list D) :
  ids_below n (map id_of c) -> findById id_of n c = None.
Proof.
  intros Hb. apply findById_absent. intros Hin.
  unfold ids_below in Hb. rewrite Forall_forall in Hb.
  specialize (Hb n Hin). lia.
Qed.

Lemma findById_snoc_fresh (n : nat) (c : list D) (d : D) :
  ids_below n (map id_of c) -> id_of d = n ->
  findById id_of n (c ++ [d]) = Some d.
Proof.
  intros Hb Hd. rewrite findById_app_r by now apply findById_fresh.
  unfold findById. simpl. apply Nat.eqb_eq in Hd. now rewrite Hd.
Qed.

Lemma findById_deleteOne_other (id id' : ObjectId) (c : list D) :
  id' <> id ->
  findById id_of id' (deleteOne id_of id c) = findById id_of id' c.
Proof.
  intros Hne. induction c as [|x c IH]; simpl; [reflexivity|].
  destruct (Nat.eqb (id_of x) id) eqn:Hx; simpl.
  - apply Nat.eqb_eq in Hx.
    destruct (Nat.eqb (id_of x) id') eqn:Hx'; [|reflexivity].
    apply Nat.eqb_eq in Hx'. congruence.
  - now rewrite IH.
Qed.

Lemma updateOne_twice (id : ObjectId) (f : D -> D) (c : list D) :
  (forall x, id_of (f x) = id_of x) -> (forall x, f (f x) = f x) ->
  updateOne id_of id f (updateOne id_of id f c) = updateOne id_of id f c.
Proof.
  intros Hid Hf. induction c as [|x c IH]; simpl; [reflexivity|].
  destruct (Nat.eqb (id_of x) id) eqn:Hx; simpl.
  - now rewrite Hid, Hx, Hf.
  - now rewrite Hx, IH.
Qed.

End CollectionMore.

Section MoreProperties.
Context {E : Externals}.

(** ** Reporting *)



(** ** Requests that end on an exception *)

(** X3. DELETE /api/threads/:board for a thread id that refers to nothing
    raises a TypeError (the digest is read off [null]), and for a stored
    thread without a password in the body raises the error of
    [bcrypt.compare]; no response is sent and the world is as it was. *)
Theorem threads_delete_raises (w : World) (thread_id : ObjectId) :
  (findById Thread._id thread_id (threads (db w)) = None ->
   forall password, threads_delete password thread_id w = (Throw TypeError, w))
  /\ (forall t,
        findById Thread._id thread_id (threads (db w)) = Some t ->
        threads_delete None thread_id w = (Throw BcryptError, w)).
Proof.
  split.
  - intros Hnone password.
    unfold threads_delete, bind, Thread_findOne, read. now rewrite Hnone.
  - intros t Hfind.
    unfold threads_delete, bind, Thread_findOne, read. now rewrite Hfind.
Qed.

(** X4. DELETE /api/replies/:board for a reply id that refers to nothing
    raises a TypeError, and for a stored reply without a password in the body
    raises the error of [bcrypt.compare], whether or not the thread id refers
    to a thread; no response is sent and the world is as it was. *)
Theorem replies_delete_raises (w : World) (thread_id reply_id : ObjectId) :
  (findById Reply._id reply_id (replies (db w)) = None ->
   forall password,
     replies_delete password thread_id reply_id w = (Throw TypeError, w))
  /\ (forall r,
        findById Reply._id reply_id (replies (db w)) = Some r ->
        replies_delete None thread_id reply_id w = (Throw BcryptError, w)).
Proof.
  split.
  - intros Hnone password.
    unfold replies_delete, bind, Thread_findOne, Reply_findOne, read.
    now rewrite Hnone.
  - intros r Hfind.
    unfold replies_delete, bind, Thread_findOne, Reply_findOne, read.
    now rewrite Hfind.
Qed.

(** X5. POST /api/replies/:board with a password, for a thread id that
    refers to nothing, raises a TypeError and sends no response, but only
    after the reply was saved: the replies collection has the new reply at its
    end, attached to no thread; threads and boards are the same. *)
Theorem replies_post_missing_thread (w : World) (board : string)
    (text : option string) (password : string) (thread_id : ObjectId) :
  findById Thread._id thread_id (threads (db w)) = None ->
  let w' := exec (replies_post board text (Some password) thread_id) w in
  outcome (replies_post board text (Some password) thread_id) w = Throw TypeError
  /\ replies (db w')
     = replies (db w)
       ++ [Reply.mk (oids w) text (Date_now (ticks w))
             (bcrypt_hash password 10 (salts w)) false]
  /\ threads (db w') = threads (db w)
  /\ boards (db w') = boards (db w).
Proof.
  intros Hnone.
  unfold replies_post, exec, outcome, hash, bind, Thread_findOne, read,
    Reply_create, bind, new_ObjectId, now, write, ret, throw.
  cbn [oids ticks salts db]. rewrite Hnone. cbn [option_map].
  rewrite (validate_reply _ _ (bcrypt_hash_nonempty _ _ _)).
  cbn [fst snd with_db db threads replies boards set_replies].
  repeat split.
Qed.

(** ** Reads that write *)

Lemma filter_no_ids (ts : list Thread.t) :
  filter (fun t => existsb (Nat.eqb (Thread._id t)) []) ts = [].
Proof. induction ts as [|t ts IH]; [reflexivity | exact IH]. Qed.

(** X6. GET /api/threads/:board for a name that no board has creates that
    board, empty, at the end of the boards collection and answers 200 with an
    empty array; for the name of a stored board it leaves the world as it
    was.  GET /api/replies/:board never changes the world. *)
Theorem reads_and_the_store (w : World) :
  (forall board,
     board <> "" ->
     match find (fun b => String.eqb (Board.name b) board) (boards (db w)) with
     | Some _ => exec (threads_get board) w = w
     | None =>
         let w' := exec (threads_get board) w in
         outcome (threads_get board) w = Ok (Send 200 (JArr []))
         /\ boards (db w') = boards (db w) ++ [Board.mk (oids w) board []]
         /\ threads (db w') = threads (db w)
         /\ replies (db w') = replies (db w)
     end)
  /\ (forall thread_id, exec (replies_get thread_id) w = w).
Proof.
  split; [|reflexivity].
  intros board Hb. unfold threads_get, exec, outcome, bind.
  generalize (getBoard_run w board Hb).
  destruct (find _ (boards (db w))) as [b|]; cbn zeta; intros ->;
    unfold Thread_find_recent, read, lift, ret;
    cbn [db replies threads set_boards]; rewrite forEach_preview.
  - reflexivity.
  - cbn [Board.threads]. rewrite filter_no_ids. repeat split.
Qed.

(** ** What the list of a board shows *)

Lemma insert_desc_perm (t : Thread.t) (l : list Thread.t) :
  Permutation (insert_desc t l) (t :: l).
Proof.
  induction l as [|x l IH]; simpl; [reflexivity|].
  destruct (Thread.bumped_on t <? Thread.bumped_on x)%Z; [|reflexivity].
  rewrite IH. apply perm_swap.
Qed.

Lemma sort_bumped_desc_perm (l : list Thread.t) :
  Permutation (sort_bumped_desc l) l.
Proof.
  induction l as [|t l IH]; simpl; [reflexivity|].
  rewrite insert_desc_perm. now constructor.
Qed.

(** Filtering and truncating threads keeps their ids different. *)
Lemma filter_threads_ids (keep : Thread.t -> bool) (ts : list Thread.t) :
  NoDup (map Thread._id ts) -> NoDup (map Thread._id (filter keep ts)).
Proof.
  induction ts as [|t ts IH]; cbn [filter map]; intros Hts; [constructor|].
  apply NoDup_cons_iff in Hts. destruct Hts as [Hfresh Hts].
  destruct (keep t); cbn [map]; [|now apply IH].
  apply NoDup_cons_iff. split; [|now apply IH].
  contradict Hfresh. apply in_map_iff in Hfresh.
  destruct Hfresh as (u & Hu & Hin). apply filter_In in Hin.
  rewrite <- Hu. apply in_map. tauto.
Qed.

Lemma firstn_threads_ids (n : nat) (ts : list Thread.t) :
  NoDup (map Thread._id ts) -> NoDup (map Thread._id (firstn n ts)).
Proof.
  intros Hts. rewrite <- (firstn_skipn n ts), map_app in Hts.
  exact (NoDup_app_remove_r _ _ Hts).
Qed.

Lemma recent_threads_incl (ids : list ObjectId) (d : Db) :
  incl (recent_threads ids d) (threads d).
Proof.
  intros t Ht. unfold recent_threads in Ht.
  assert (Hs : In t (sort_bumped_desc
                (filter (fun t => existsb (Nat.eqb (Thread._id t)) ids) (threads d)))).
  { rewrite <- (firstn_skipn 10 (sort_bumped_desc _)). apply in_or_app. now left. }
  apply (Permutation_in _ (sort_bumped_desc_perm _)) in Hs.
  now apply filter_In in Hs.
Qed.

Lemma recent_threads_ids (ids : list ObjectId) (d : Db) (t : Thread.t) :
  In t (recent_threads ids d) -> In (Thread._id t) ids.
Proof.
  intros Ht. unfold recent_threads in Ht.
  assert (Hs : In t (sort_bumped_desc
                (filter (fun t => existsb (Nat.eqb (Thread._id t)) ids) (threads d)))).
  { rewrite <- (firstn_skipn 10 (sort_bumped_desc _)). apply in_or_app. now left. }
  apply (Permutation_in _ (sort_bumped_desc_perm _)) in Hs.
  apply filter_In in Hs. destruct Hs as [_ Hs].
  apply existsb_exists in Hs. destruct Hs as (id & Hin & Heq).
  apply Nat.eqb_eq in Heq. now rewrite Heq.
Qed.

Lemma recent_threads_NoDup (ids : list ObjectId) (d : Db) :
  NoDup (map Thread._id (threads d)) ->
  NoDup (map Thread._id (recent_threads ids d)).
Proof.
  intros H. unfold recent_threads. apply firstn_threads_ids.
  eapply Permutation_NoDup.
  - apply Permutation_map. symmetry. apply sort_bumped_desc_perm.
  - now apply filter_threads_ids.
Qed.

Lemma findById_In_NoDup {D : Type} (id_of : D -> ObjectId) (c : list D) (d : D) :
  NoDup (map id_of c) -> In d c -> findById id_of (id_of d) c = Some d.
Proof.
  induction c as [|x c IH]; simpl; [tauto|].
  intros H Hin. inversion H as [|? ? Hx Hc]; subst.
  destruct Hin as [->|Hin]; [now rewrite Nat.eqb_refl|].
  destruct (Nat.eqb (id_of x) (id_of d)) eqn:Hxd; [|now apply IH].
  apply Nat.eqb_eq in Hxd. exfalso. apply Hx. rewrite Hxd. now apply in_map.
Qed.

(** The threads behind the answer of GET /api/threads/:board. *)
Lemma threads_get_listed (w : World) (board : string) :
  board <> "" ->
  exists ts,
    outcome (threads_get board) w
    = Ok (Send 200 (JArr (map (fun t => JObj (thread_list_view (replies (db w)) t)) ts)))
    /\ incl ts (threads (db w))
    /\ (NoDup (map Thread._id (threads (db w))) -> NoDup (map Thread._id ts))
    /\ match find (fun b => String.eqb (Board.name b) board) (boards (db w)) with
       | Some b => forall t, In t ts -> In (Thread._id t) (Board.threads b)
       | None => ts = []
       end.
Proof.
  intros Hb. unfold threads_get, outcome, bind.
  generalize (getBoard_run w board Hb).
  destruct (find _ (boards (db w))) as [b|]; cbn zeta; intros ->;
    unfold Thread_find_recent, read, lift, ret;
    cbn [db replies threads set_boards];
    rewrite forEach_preview; cbn [fst]; rewrite map_map.
  - exists (recent_threads (Board.threads b) (db w)).
    split; [reflexivity|]. split; [apply recent_threads_incl|].
    split; [apply recent_threads_NoDup | apply recent_threads_ids].
  - exists []. cbn [Board.threads]. rewrite filter_no_ids.
    split; [reflexivity|]. split; [apply incl_nil_l|].
    split; [constructor | reflexivity].
Qed.

Lemma js_slice_suffix {A : Type} (xs : list A) (start : Z) :
  exists prefix, xs = prefix ++ js_slice xs start.
Proof.
  unfold js_slice. eexists. symmetry. apply firstn_skipn.
Qed.

(** X7. For a board name of the route and a store with unique ids, every
    thread in the answer of GET /api/threads/:board can be read in full with
    GET /api/replies/:board under the [_id] it is listed with: the two
    objects agree on [_id], [text], [created_on] and [bumped_on], the listed
    replies are the last ones of the full sequence, at most three, and
    [replycount] is the length of the full sequence. *)
Theorem listed_thread_is_readable (w : World) (board : string) :
  wf w -> board <> "" ->
  exists views,
    outcome (threads_get board) w = Ok (Send 200 (JArr views))
    /\ forall v, In v views ->
         exists id o,
           id_of_view v = Some id
           /\ outcome (replies_get id) w = Ok (Send 200 (JObj o))
           /\ view_get "_id" v = obj_get "_id" o
           /\ view_get "text" v = obj_get "text" o
           /\ view_get "created_on" v = obj_get "created_on" o
           /\ view_get "bumped_on" v = obj_get "bumped_on" o
           /\ length (view_replies v) <= 3
           /\ (exists earlier, reply_views o = earlier ++ view_replies v)
           /\ replycount_of v = Some (Z.of_nat (length (reply_views o))).
Proof.
  intros Hwf Hb. destruct (threads_get_listed w board Hb) as (ts & Hrun & Hincl & _).
  eexists. split; [exact Hrun|].
  intros v Hv. apply in_map_iff in Hv. destruct Hv as (t & <- & Ht).
  exists (Thread._id t), (populate (replies (db w)) (doc (Thread_document None t))).
  split; [reflexivity|]. split.
  { unfold replies_get, outcome, bind, Thread_findOne_populated, read, ret.
    rewrite (findById_In_NoDup Thread._id _ t (wf_threads w Hwf) (Hincl t Ht)).
    reflexivity. }
  do 4 (split; [reflexivity|]).
  rewrite reply_views_populate.
  change (view_replies (JObj (thread_list_view (replies (db w)) t)))
    with (js_slice (flat_map (populate_reply (replies (db w))) (map JOid (Thread.replies t)))
            (Z.of_nat (length (flat_map (populate_reply (replies (db w)))
                                 (map JOid (Thread.replies t)))) - 3)).
  split.
  { rewrite js_slice_preview_length.
    destruct (Nat.eqb _ 2); lia. }
  split; [apply js_slice_suffix | reflexivity].
Qed.

(** X8. For the name of a stored board and a store with unique ids, the
    threads in the answer of GET /api/threads/:board are listed under ids
    that are all different and all in the thread list of that board. *)
Theorem list_is_scoped_to_board (w : World) (board : string) (b : Board.t) :
  wf w -> board <> "" ->
  find (fun b => String.eqb (Board.name b) board) (boards (db w)) = Some b ->
  exists views ids,
    outcome (threads_get board) w = Ok (Send 200 (JArr views))
    /\ map id_of_view views = map Some ids
    /\ NoDup ids
    /\ incl ids (Board.threads b).
Proof.
  intros Hwf Hb Hfind.
  destruct (threads_get_listed w board Hb) as (ts & Hrun & _ & Hnd & Hids).
  rewrite Hfind in Hids.
  exists (map (fun t => JObj (thread_list_view (replies (db w)) t)) ts),
         (map Thread._id ts).
  split; [exact Hrun|]. split; [now rewrite !map_map|].
  split; [exact (Hnd (wf_threads w Hwf))|].
  intros id Hid. apply in_map_iff in Hid. destruct Hid as (t & <- & Ht). auto.
Qed.

(** ** Deleting a thread, again *)

Lemma threads_delete_run (w : World) (thread_id : ObjectId) (t : Thread.t)
    (password : string) :
  findById Thread._id thread_id (threads (db w)) = Some t ->
  threads_delete (Some password) thread_id w
  = if bcrypt_compare password (Thread.delete_password t)
    then (Ok (Send 200 (JStr "success")),
          with_db (fun d => set_threads (deleteOne Thread._id thread_id (threads d)) d) w)
    else (Ok (Send 400 (JStr "incorrect password")), w).
Proof.
  intros Hfind.
  unfold threads_delete, bind, Thread_findOne, read, compare.
  rewrite Hfind. cbn [option_map]. rewrite Thread_document_password.
  unfold ret, write. cbn [doc_id Thread_document].
  rewrite (findById_id _ _ _ _ Hfind).
  now destruct (bcrypt_compare password (Thread.delete_password t)).
Qed.

Lemma deleteOne_not_In {D : Type} (id_of : D -> ObjectId) (id : ObjectId) (c : list D) :
  NoDup (map id_of c) -> ~ In id (map id_of (deleteOne id_of id c)).
Proof.
  induction c as [|x c IH]; simpl; [tauto|].
  intros H. inversion H as [|? ? Hx Hc]; subst.
  destruct (Nat.eqb (id_of x) id) eqn:Hxid.
  - apply Nat.eqb_eq in Hxid. now subst id.
  - simpl. intros [Heq|Hin]; [|now apply IH].
    apply Nat.eqb_neq in Hxid. contradiction.
Qed.

Lemma deleteOne_split {D : Type} (id_of : D -> ObjectId) (id : ObjectId)
    (l1 l2 : list D) (d : D) :
  findById id_of id l1 = None -> id_of d = id ->
  deleteOne id_of id (l1 ++ d :: l2) = l1 ++ l2.
Proof.
  intros Hl1 Hd. induction l1 as [|x l1 IH]; simpl in *.
  - apply Nat.eqb_eq in Hd. now rewrite Hd.
  - destruct (Nat.eqb (id_of x) id); [discriminate|]. now rewrite IH.
Qed.

(** X9. Deleting a thread with a password that bcrypt verifies answers
    200 'success' and removes that one thread record and nothing else: the
    threads before and after it stay, in their order, the replies of the
    thread stay in the replies collection and the board keeps the id in its
    thread list.  In a store with unique ids the thread is in no answer of
    GET /api/threads/:board afterwards. *)
Theorem deleted_thread_is_unlisted (w : World) (thread_id : ObjectId) (t : Thread.t)
    (password : string) :
  wf w ->
  findById Thread._id thread_id (threads (db w)) = Some t ->
  bcrypt_compare password (Thread.delete_password t) = true ->
  let w' := exec (threads_delete (Some password) thread_id) w in
  outcome (threads_delete (Some password) thread_id) w = Ok (Send 200 (JStr "success"))
  /\ (exists l1 l2,
         threads (db w) = l1 ++ t :: l2 /\ threads (db w') = l1 ++ l2)
  /\ boards (db w') = boards (db w)
  /\ replies (db w') = replies (db w)
  /\ forall board,
       board <> "" ->
       exists views,
         outcome (threads_get board) w' = Ok (Send 200 (JArr views))
         /\ forall v, In v views -> id_of_view v <> Some thread_id.
Proof.
  intros Hwf Hfind Hcmp. unfold exec, outcome.
  rewrite (threads_delete_run w thread_id t password Hfind), Hcmp. cbn [fst snd].
  split; [reflexivity|]. split.
  { destruct (findById_split _ _ _ _ Hfind) as (l1 & l2 & Hc & Hl1).
    exists l1, l2. split; [exact Hc|].
    cbn [db with_db threads set_threads]. rewrite Hc.
    apply deleteOne_split; [exact Hl1 | eapply findById_id; eauto]. }
  split; [reflexivity|]. split; [reflexivity|].
  intros board Hb.
  match goal with |- context [threads_get board ?w1] =>
    destruct (threads_get_listed w1 board Hb) as (ts & Hrun & Hincl & _) end.
  eexists. split; [exact Hrun|].
  intros v Hv. apply in_map_iff in Hv. destruct Hv as (u & <- & Hu).
  cbn [id_of_view thread_list_view obj_get String.eqb Ascii.eqb Bool.eqb].
  intros [= Heq]. apply Hincl in Hu. cbn [db with_db threads set_threads] in Hu.
  apply (deleteOne_not_In Thread._id thread_id (threads (db w)) (wf_threads w Hwf)).
  rewrite <- Heq at 1. now apply in_map.
Qed.

(** ** Reports and the read views *)

Section MapCommute.
Variable g : Thread.t -> Thread.t.
Hypothesis g_id : forall t, Thread._id (g t) = Thread._id t.
Hypothesis g_bumped : forall t, Thread.bumped_on (g t) = Thread.bumped_on t.

Lemma insert_desc_map (t : Thread.t) (l : list Thread.t) :
  insert_desc (g t) (map g l) = map g (insert_desc t l).
Proof.
  induction l as [|x l IH]; simpl; [reflexivity|].
  rewrite !g_bumped.
  destruct (Thread.bumped_on t <? Thread.bumped_on x)%Z; simpl; [|reflexivity].
  now rewrite IH.
Qed.

Lemma sort_bumped_desc_map (l : list Thread.t) :
  sort_bumped_desc (map g l) = map g (sort_bumped_desc l).
Proof.
  induction l as [|t l IH]; simpl; [reflexivity|].
  now rewrite IH, insert_desc_map.
Qed.

Lemma recent_threads_map (ids : list ObjectId) (d : Db) :
  recent_threads ids (set_threads (map g (threads d)) d)
  = map g (recent_threads ids d).
Proof.
  unfold recent_threads. cbn [threads set_threads].
  rewrite <- firstn_map, <- sort_bumped_desc_map. do 2 f_equal.
  induction (threads d) as [|t l IH]; simpl; [reflexivity|].
  rewrite g_id.
  destruct (existsb (Nat.eqb (Thread._id t)) ids); simpl; now rewrite IH.
Qed.

End MapCommute.

Lemma updateOne_map {D : Type} (id_of : D -> ObjectId) (id : ObjectId) (f : D -> D)
    (c : list D) :
  NoDup (map id_of c) ->
  updateOne id_of id f c
  = map (fun x => if Nat.eqb (id_of x) id then f x else x) c.
Proof.
  induction c as [|x c IH]; simpl; [reflexivity|].
  intros H. inversion H as [|? ? Hx Hc]; subst.
  destruct (Nat.eqb (id_of x) id) eqn:Hxid; [|now rewrite IH].
  f_equal. apply Nat.eqb_eq in Hxid. subst id.
  clear IH H Hc. induction c as [|y c IH]; simpl; [reflexivity|].
  simpl in Hx.
  destruct (Nat.eqb (id_of y) (id_of x)) eqn:Hy.
  - apply Nat.eqb_eq in Hy. tauto.
  - f_equal. apply IH. tauto.
Qed.

Lemma getBoard_outcome_same (w w' : World) (name : string) :
  boards (db w') = boards (db w) ->
  oids w' = oids w ->
  outcome (getBoard name) w' = outcome (getBoard name) w.
Proof.
  intros Hboards Hoids.
  unfold outcome, getBoard, bind, Board_findOne, read. rewrite Hboards.
  destruct (find _ (boards (db w))); [reflexivity|].
  unfold Board_create, bind, new_ObjectId. rewrite Hoids.
  now destruct (validate boardSchema _).
Qed.

(** The answer of GET /api/threads/:board, from the board that [getBoard]
    returns and the threads and replies of the store. *)
Lemma threads_get_outcome (w : World) (board : string) :
  outcome (threads_get board) w
  = match outcome (getBoard board) w with
    | Ok b =>
        Ok (Send 200
              (JArr (map JObj
                       (map (thread_list_view (replies (db w)))
                          (recent_threads (Board.threads b) (db w))))))
    | Throw e => Throw e
    end.
Proof.
  unfold threads_get, outcome.
  unfold bind at 1. unfold getBoard, bind, Board_findOne, read.
  destruct (find _ (boards (db w))) as [b|].
  - unfold Thread_find_recent, read, lift, ret. cbn [fst].
    change (firstn 10 (sort_bumped_desc (filter ?p (threads ?d))))
      with (recent_threads (Board.threads b) d).
    now rewrite forEach_preview.
  - unfold Board_create, bind, new_ObjectId.
    destruct (validate boardSchema _); [|reflexivity].
    unfold write, ret, Thread_find_recent, read, lift.
    cbn [fst db with_db threads replies set_boards].
    change (firstn 10 (sort_bumped_desc (filter ?p (threads ?d))))
      with (recent_threads (Board.threads (Board.mk (oids w) board [])) d).
    now rewrite forEach_preview.
Qed.

(** The answer of GET /api/threads/:board depends on the boards, on the
    counter of ObjectIds and on the objects of the most recent threads. *)
Lemma threads_get_same (w w' : World) (board : string) :
  boards (db w') = boards (db w) ->
  oids w' = oids w ->
  (forall ids,
     map (thread_list_view (replies (db w'))) (recent_threads ids (db w'))
     = map (thread_list_view (replies (db w))) (recent_threads ids (db w))) ->
  outcome (threads_get board) w' = outcome (threads_get board) w.
Proof.
  intros Hboards Hoids Hviews.
  rewrite !threads_get_outcome, (getBoard_outcome_same w w' board Hboards Hoids).
  destruct (outcome (getBoard board) w); [|reflexivity].
  now rewrite Hviews.
Qed.

Lemma findById_updateOne {D : Type} (id_of : D -> ObjectId) (id id' : ObjectId)
    (f : D -> D) (c : list D) :
  (forall x, id_of (f x) = id_of x) ->
  findById id_of id' (updateOne id_of id f c)
  = if Nat.eqb id' id then option_map f (findById id_of id' c)
    else findById id_of id' c.
Proof.
  intros Hf. destruct (Nat.eqb_spec id' id) as [->|Hne].
  - destruct (findById id_of id c) as [d|] eqn:Hd.
    + now apply findById_updateOne_same.
    + now rewrite updateOne_absent.
  - now apply findById_updateOne_other.
Qed.

Lemma populate_reply_reported (rs : list Reply.t) (reply_id : ObjectId) (j : json) :
  populate_reply (updateOne Reply._id reply_id (Reply.set_reported true) rs) j
  = populate_reply rs j.
Proof.
  unfold populate_reply. destruct j; try reflexivity.
  rewrite findById_updateOne by reflexivity.
  destruct (Nat.eqb id reply_id); [|reflexivity].
  destruct (findById Reply._id id rs) as [r|]; [|reflexivity].
  cbn [option_map]. now rewrite !Reply_document_default.
Qed.

Lemma replies_get_outcome (w : World) (thread_id : ObjectId) :
  outcome (replies_get thread_id) w
  = Ok (Send 200
          match findById Thread._id thread_id (threads (db w)) with
          | Some t => JObj (populate (replies (db w)) (doc (Thread_document None t)))
          | None => JNull
          end).
Proof.
  unfold replies_get, outcome, bind, Thread_findOne_populated, read, ret.
  now destruct (findById Thread._id thread_id (threads (db w))).
Qed.

Lemma populate_ext (rs rs' : list Reply.t) (t : Thread.t) :
  (forall j, populate_reply rs' j = populate_reply rs j) ->
  populate rs' (doc (Thread_document None t)) = populate rs (doc (Thread_document None t))
  /\ thread_list_view rs' t = thread_list_view rs t.
Proof.
  intros Hext.
  assert (Hflat : flat_map (populate_reply rs') (map JOid (Thread.replies t))
                  = flat_map (populate_reply rs) (map JOid (Thread.replies t)))
    by (apply flat_map_ext; intros j; apply Hext).
  split.
  - rewrite Thread_document_default. unfold populate. cbn. now rewrite Hflat.
  - unfold thread_list_view. now rewrite Hflat.
Qed.

(** X10. In a store with unique ids, a report changes no answer of the two
    GET handlers: whatever PUT /api/threads/:board or PUT /api/replies/:board
    is asked and however it ends, every GET /api/threads/:board and every
    GET /api/replies/:board answers afterwards as it did before. *)
Theorem reports_are_invisible (w : World) :
  wf w ->
  (forall thread_id report_id,
     same_reads w (exec (threads_put thread_id report_id) w))
  /\ (forall reply_id thread_id,
        same_reads w (exec (replies_put reply_id thread_id) w)).
Proof.
  intros Hwf. split.
  - intros thread_id report_id. unfold threads_put.
    destruct (js_or thread_id report_id) as [id|]; [|split; reflexivity].
    set (g := fun x => if Nat.eqb (Thread._id x) id
                       then Thread.set_reported true x else x).
    assert (Hw' : exec (thread <- Thread_findByIdAndUpdate_reported id ;;
                        match thread with
                        | None => throw TypeError
                        | Some _ => ret (Send 200 (JStr "success"))
                        end) w
                  = {| db := set_threads (map g (threads (db w))) (db w);
                       oids := oids w; ticks := ticks w; salts := salts w |}).
    { unfold exec, Thread_findByIdAndUpdate_reported, bind, Thread_findOne,
        read, write, ret, throw, with_db, g.
      rewrite <- (updateOne_map Thread._id id _ _ (wf_threads w Hwf)).
      now destruct (findById Thread._id id (threads (db w))). }
    rewrite Hw'. split.
    + intros board. apply threads_get_same; [reflexivity | reflexivity|].
      intros ids. cbn [db replies set_threads].
      rewrite recent_threads_map.
      * rewrite map_map. apply map_ext. intros t. unfold g.
        now destruct (Nat.eqb (Thread._id t) id).
      * intros t. unfold g. now destruct (Nat.eqb (Thread._id t) id).
      * intros t. unfold g. now destruct (Nat.eqb (Thread._id t) id).
    + intros tid. rewrite !replies_get_outcome.
      cbn [db threads replies set_threads]. unfold g.
      rewrite <- (updateOne_map Thread._id id _ _ (wf_threads w Hwf)).
      rewrite findById_updateOne by reflexivity.
      destruct (Nat.eqb tid id); [|reflexivity].
      now destruct (findById Thread._id tid (threads (db w))).
  - intros reply_id thread_id.
    assert (Hw' : exec (replies_put reply_id thread_id) w
                  = with_db (fun d => set_replies
                               (updateOne Reply._id reply_id (Reply.set_reported true)
                                  (replies d)) d) w).
    { unfold exec, replies_put, Reply_findByIdAndUpdate_reported, bind,
        Reply_findOne, read, write, ret, throw.
      now destruct (findById Reply._id reply_id (replies (db w))). }
    rewrite Hw'. split.
    + intros board. apply threads_get_same; [reflexivity | reflexivity|].
      intros ids. cbn [db with_db replies set_replies].
      change (recent_threads ids (set_replies ?x (db w)))
        with (recent_threads ids (db w)).
      apply map_ext. intros t.
      apply populate_ext. intros j. apply populate_reply_reported.
    + intros tid. rewrite !replies_get_outcome.
      cbn [db with_db threads replies set_replies].
      destruct (findById Thread._id tid (threads (db w))) as [t|]; [|reflexivity].
      do 3 f_equal. apply populate_ext. intros j. apply populate_reply_reported.
Qed.

(** ** Posting, then reading or deleting *)

(** The world after a successful POST /api/threads/:board. *)
Lemma threads_post_run (w : World) (board text password : string) :
  board <> "" -> text <> "" ->
  let digest := bcrypt_hash password 10 (salts w) in
  threads_post board (Some text) (Some password) w
  = match find (fun b => String.eqb (Board.name b) board) (boards (db w)) with
    | Some b =>
        let t := Thread.mk (oids w) text (Date_now (ticks w))
                   (Date_now (S (ticks w))) digest false [] in
        (Ok (Redirect 302 (BoardPage board)),
         {| db := {| boards := updateOne Board._id (Board._id b)
                                 (Board.push_thread (oids w)) (boards (db w));
                     threads := threads (db w) ++ [t];
                     replies := replies (db w) |};
            oids := S (oids w); ticks := S (S (ticks w)); salts := S (salts w) |})
    | None =>
        let t := Thread.mk (S (oids w)) text (Date_now (ticks w))
                   (Date_now (S (ticks w))) digest false [] in
        (Ok (Redirect 302 (BoardPage board)),
         {| db := {| boards := updateOne Board._id (oids w)
                                 (Board.push_thread (S (oids w)))
                                 (boards (db w) ++ [Board.mk (oids w) board []]);
                     threads := threads (db w) ++ [t];
                     replies := replies (db w) |};
            oids := S (S (oids w)); ticks := S (S (ticks w)); salts := S (salts w) |})
    end.
Proof.
  intros Hb Ht. cbn zeta.
  unfold threads_post, hash, bind.
  match goal with |- context [getBoard board ?w1] =>
    generalize (getBoard_run w1 board Hb) end.
  cbn [db boards].
  destruct (find _ (boards (db w))) as [b|]; cbn zeta; intros ->;
    unfold Thread_create, bind, new_ObjectId, now, write, ret;
    cbn [oids ticks salts db];
    rewrite (validate_thread _ _ Ht (bcrypt_hash_nonempty _ _ _));
    reflexivity.
Qed.

(** The world after a successful POST /api/replies/:board. *)
Lemma replies_post_run (w : World) (board : string) (text : option string)
    (password : string) (thread_id : ObjectId) (t : Thread.t) :
  findById Thread._id thread_id (threads (db w)) = Some t ->
  let r := Reply.mk (oids w) text (Date_now (ticks w))
             (bcrypt_hash password 10 (salts w)) false in
  replies_post board text (Some password) thread_id w
  = (Ok (Redirect 302 (ThreadPage board thread_id)),
     {| db := {| boards := boards (db w);
                 threads := updateOne Thread._id thread_id
                              (Thread.push_reply (oids w) (Date_now (ticks w)))
                              (threads (db w));
                 replies := replies (db w) ++ [r] |};
        oids := S (oids w); ticks := S (ticks w); salts := S (salts w) |}).
Proof.
  intros Hfind. cbn zeta.
  unfold replies_post, hash, bind, Thread_findOne, read,
    Reply_create, bind, new_ObjectId, now, write, ret.
  cbn [oids ticks salts db]. rewrite Hfind. cbn [option_map].
  rewrite (validate_reply _ _ (bcrypt_hash_nonempty _ _ _)).
  cbn [doc_id Thread_document Reply._id Reply.created_on].
  now rewrite (findById_id _ _ _ _ Hfind).
Qed.

Lemma find_split {A : Type} (p : A -> bool) (l : list A) (x : A) :
  find p l = Some x ->
  exists l1 l2, l = l1 ++ x :: l2 /\ find p l1 = None /\ p x = true.
Proof.
  induction l as [|y l IH]; simpl; [discriminate|].
  destruct (p y) eqn:Hy.
  - intros [= ->]. exists [], l. auto.
  - intros H. destruct (IH H) as (l1 & l2 & -> & Hl1 & Hx).
    exists (y :: l1), l2. simpl. rewrite Hy. auto.
Qed.

Lemma find_app_none {A : Type} (p : A -> bool) (l1 l2 : list A) :
  find p l1 = None -> find p (l1 ++ l2) = find p l2.
Proof.
  induction l1 as [|y l1 IH]; simpl; [reflexivity|].
  destruct (p y); [discriminate | exact IH].
Qed.

Lemma NoDup_map_app_absent {D : Type} (id_of : D -> ObjectId) (l1 l2 : list D) (d : D) :
  NoDup (map id_of (l1 ++ d :: l2)) -> findById id_of (id_of d) l1 = None.
Proof.
  intros H. apply findById_absent. rewrite map_app in H. simpl in H.
  apply NoDup_remove_2 in H. intros Hin. apply H. apply in_or_app. now left.
Qed.

(** X11. In a store with unique ids, after a POST /api/threads/:board with
    a text and a password the new thread can be read under a new id:
    GET /api/replies/:board answers with the text, the two dates read from the
    clock and no reply, none of the private paths; the board of that name
    ends its thread list with the new id. *)
Theorem posted_thread_is_readable (w : World) (board text password : string) :
  wf w -> board <> "" -> text <> "" ->
  let w' := exec (threads_post board (Some text) (Some password)) w in
  exists id,
    findById Thread._id id (threads (db w)) = None
    /\ outcome (replies_get id) w'
       = Ok (Send 200
               (JObj [("_id", JOid id);
                      ("text", JStr text);
                      ("created_on", JDate (Date_now (ticks w)));
                      ("bumped_on", JDate (Date_now (S (ticks w))));
                      ("replies", JArr [])]))
    /\ exists b earlier,
         find (fun b => String.eqb (Board.name b) board) (boards (db w')) = Some b
         /\ Board.threads b = earlier ++ [id].
Proof.
  intros Hwf Hb Ht. unfold exec.
  generalize (threads_post_run w board text password Hb Ht). cbn zeta.
  destruct (find _ (boards (db w))) as [b|] eqn:Hfind; intros ->; cbn [snd].
  - exists (oids w).
    assert (Hfresh : findById Thread._id (oids w) (threads (db w)) = None)
      by apply findById_fresh, Hwf.
    split; [exact Hfresh|]. split.
    + rewrite replies_get_outcome. cbn [db threads replies].
      rewrite findById_app_r by exact Hfresh.
      unfold findById. cbn [find Thread._id]. now rewrite Nat.eqb_refl.
    + destruct (find_split _ _ _ Hfind) as (l1 & l2 & Hc & Hl1 & Hname).
      exists (Board.push_thread (oids w) b), (Board.threads b).
      split; [|reflexivity]. cbn [db boards].
      pose proof (wf_boards w Hwf) as Hnd. rewrite Hc in Hnd.
      rewrite Hc, (updateOne_split Board._id _ _ l1 l2 b
                     (NoDup_map_app_absent _ _ _ _ Hnd) eq_refl).
      rewrite find_app_none by exact Hl1. cbn [find Board.push_thread Board.name].
      now rewrite Hname.
  - exists (S (oids w)).
    assert (Hfresh : findById Thread._id (S (oids w)) (threads (db w)) = None).
    { apply findById_fresh. eapply ids_below_mono; [|apply Hwf]. lia. }
    split; [exact Hfresh|]. split.
    + rewrite replies_get_outcome. cbn [db threads replies].
      rewrite findById_app_r by exact Hfresh.
      unfold findById. cbn [find Thread._id]. now rewrite Nat.eqb_refl.
    + exists (Board.push_thread (S (oids w)) (Board.mk (oids w) board [])), [].
      split; [|reflexivity]. cbn [db boards].
      rewrite (updateOne_split Board._id (oids w) _ (boards (db w)) []
                 (Board.mk (oids w) board [])
                 (findById_fresh Board._id _ _ (wf_boards_below w Hwf)) eq_refl).
      apply find_app_last; [exact Hfind|].
      cbn [Board.push_thread Board.name]. apply String.eqb_refl.
Qed.

Lemma flat_map_populate_app (rs : list Reply.t) (r : Reply.t) (ids : list ObjectId) :
  Forall (fun id => findById Reply._id id rs <> None) ids ->
  flat_map (populate_reply (rs ++ [r])) (map JOid ids)
  = flat_map (populate_reply rs) (map JOid ids).
Proof.
  induction 1 as [|id ids Hid _ IH]; [reflexivity|].
  cbn [map flat_map]. rewrite IH. f_equal. unfold populate_reply.
  destruct (findById Reply._id id rs) as [x|] eqn:Hx; [|contradiction].
  now rewrite (findById_app_l Reply._id id rs [r] x Hx).
Qed.

(** X12. In a store with unique ids, after a POST /api/replies/:board with
    a password on a stored thread whose reply ids all refer to stored replies,
    GET /api/replies/:board shows the thread with the replies it showed
    before followed by the new reply, with the text given (or no text when
    none was given) and without the private paths; [bumped_on] is the date of
    the new reply and [text] and [created_on] of the thread are as before. *)
Theorem posted_reply_is_readable (w : World) (board : string) (text : option string)
    (password : string) (thread_id : ObjectId) (t : Thread.t) :
  wf w ->
  findById Thread._id thread_id (threads (db w)) = Some t ->
  Forall (fun id => findById Reply._id id (replies (db w)) <> None) (Thread.replies t) ->
  let w' := exec (replies_post board text (Some password) thread_id) w in
  exists o o',
    outcome (replies_get thread_id) w = Ok (Send 200 (JObj o))
    /\ outcome (replies_get thread_id) w' = Ok (Send 200 (JObj o'))
    /\ reply_views o'
       = reply_views o
         ++ [JObj (("_id", JOid (oids w))
                   :: match text with Some s => [("text", JStr s)] | None => [] end
                   ++ [("created_on", JDate (Date_now (ticks w)))])]
    /\ obj_get "bumped_on" o' = Some (JDate (Date_now (ticks w)))
    /\ obj_get "text" o' = obj_get "text" o
    /\ obj_get "created_on" o' = obj_get "created_on" o.
Proof.
  intros Hwf Hfind Hrefs. unfold exec.
  rewrite (replies_post_run w board text password thread_id t Hfind). cbn [snd].
  do 2 eexists. rewrite !replies_get_outcome. cbn [db threads replies].
  rewrite Hfind.
  rewrite (findById_updateOne_same Thread._id thread_id
             (Thread.push_reply (oids w) (Date_now (ticks w))) _ t
             (fun _ => eq_refl) Hfind).
  split; [reflexivity|]. split; [reflexivity|].
  rewrite !reply_views_populate. cbn [Thread.push_reply Thread.replies].
  split; [|repeat split].
  rewrite map_app, flat_map_app, (flat_map_populate_app _ _ _ Hrefs).
  f_equal. cbn [map flat_map populate_reply]. rewrite app_nil_r.
  rewrite (findById_snoc_fresh Reply._id (oids w) (replies (db w))
             (Reply.mk (oids w) text (Date_now (ticks w))
                (bcrypt_hash password 10 (salts w)) false)
             (wf_replies_below w Hwf) eq_refl).
  now rewrite Reply_document_default.
Qed.

Lemma replies_delete_run (w : World) (thread_id reply_id : ObjectId) (r : Reply.t)
    (password : string) :
  findById Reply._id reply_id (replies (db w)) = Some r ->
  replies_delete (Some password) thread_id reply_id w
  = if bcrypt_compare password (Reply.delete_password r)
    then (Ok (Send 200 (JStr "success")),
          with_db (fun d => set_replies
                     (updateOne Reply._id reply_id (Reply.set_text "[deleted]")
                        (replies d)) d) w)
    else (Ok (Send 400 (JStr "incorrect password")), w).
Proof.
  intros Hfind.
  unfold replies_delete, bind, Thread_findOne, Reply_findOne, read, compare.
  rewrite Hfind. cbn [option_map]. rewrite Reply_document_password.
  unfold ret, write. cbn [doc_id Reply_document].
  rewrite (findById_id _ _ _ _ Hfind).
  now destruct (bcrypt_compare password (Reply.delete_password r)).
Qed.

Lemma deleteOne_snoc_fresh {D : Type} (id_of : D -> ObjectId) (c : list D) (d : D) :
  findById id_of (id_of d) c = None -> deleteOne id_of (id_of d) (c ++ [d]) = c.
Proof.
  induction c as [|x c IH]; simpl.
  - now rewrite Nat.eqb_refl.
  - destruct (Nat.eqb (id_of x) (id_of d)); [discriminate|].
    intros H. now rewrite IH.
Qed.

(** X13. When bcrypt verifies a password against the digest it made of it,
    the password given with a new thread deletes that thread: in a store with
    unique ids, POST /api/threads/:board followed by DELETE
    /api/threads/:board with the new id and the same password answers 200
    'success' and leaves the threads collection as it was before the two
    requests, while any password that bcrypt does not verify against that
    digest is answered 400 'incorrect password'. *)
Theorem thread_password_round_trip (w : World) (board text password : string) :
  wf w -> board <> "" -> text <> "" ->
  bcrypt_compare password (bcrypt_hash password 10 (salts w)) = true ->
  let w' := exec (threads_post board (Some text) (Some password)) w in
  exists id,
    findById Thread._id id (threads (db w)) = None
    /\ outcome (threads_delete (Some password) id) w' = Ok (Send 200 (JStr "success"))
    /\ threads (db (exec (threads_delete (Some password) id) w')) = threads (db w)
    /\ forall other,
         bcrypt_compare other (bcrypt_hash password 10 (salts w)) = false ->
         threads_delete (Some other) id w'
         = (Ok (Send 400 (JStr "incorrect password")), w').
Proof.
  intros Hwf Hb Ht Hcmp. unfold exec, outcome.
  generalize (threads_post_run w board text password Hb Ht). cbn zeta.
  destruct (find _ (boards (db w))) as [b|]; intros ->; cbn [snd];
    [exists (oids w) | exists (S (oids w))].
  all: match goal with |- findById _ ?i _ = None /\ _ =>
         assert (Hfresh : findById Thread._id i (threads (db w)) = None)
           by (apply findById_fresh; eapply ids_below_mono; [|apply Hwf]; lia)
       end.
  all: split; [exact Hfresh|].
  all: match goal with |- context [threads_delete _ ?i ?w1] =>
         assert (Hnew : exists u, findById Thread._id i (threads (db w1)) = Some u
                   /\ Thread._id u = i
                   /\ Thread.delete_password u = bcrypt_hash password 10 (salts w)
                   /\ threads (db w1) = threads (db w) ++ [u])
           by (eexists; cbn [db threads]; rewrite findById_app_r by exact Hfresh;
               unfold findById; cbn [find Thread._id]; rewrite Nat.eqb_refl;
               repeat split)
       end.
  all: destruct Hnew as (u & Hu & Huid & Hudig & Hthreads).
  all: split; [rewrite (threads_delete_run _ _ u password Hu), Hudig, Hcmp; reflexivity|].
  all: split;
    [ rewrite (threads_delete_run _ _ u password Hu), Hudig, Hcmp;
      cbn [snd db with_db threads set_threads] in *; rewrite Hthreads, <- Huid;
      apply deleteOne_snoc_fresh; now rewrite Huid
    | intros other Hother;
      rewrite (threads_delete_run _ _ u other Hu), Hudig, Hother; reflexivity ].
Qed.

(** X14. When bcrypt verifies a password against the digest it made of it,
    the password given with a new reply redacts that reply: in a store with
    unique ids, POST /api/replies/:board on a stored thread followed by
    DELETE /api/replies/:board with the new id and the same password answers
    200 'success', and the reply is stored with the text '[deleted]' and the
    date and digest it was created with.  Doing it again answers the same and
    changes nothing. *)
Theorem reply_password_round_trip (w : World) (board : string) (text : option string)
    (password : string) (thread_id : ObjectId) (t : Thread.t) :
  wf w ->
  findById Thread._id thread_id (threads (db w)) = Some t ->
  bcrypt_compare password (bcrypt_hash password 10 (salts w)) = true ->
  let w' := exec (replies_post board text (Some password) thread_id) w in
  let w'' := exec (replies_delete (Some password) thread_id (oids w)) w' in
  outcome (replies_delete (Some password) thread_id (oids w)) w'
  = Ok (Send 200 (JStr "success"))
  /\ findById Reply._id (oids w) (replies (db w''))
     = Some (Reply.mk (oids w) (Some "[deleted]") (Date_now (ticks w))
               (bcrypt_hash password 10 (salts w)) false)
  /\ replies_delete (Some password) thread_id (oids w) w''
     = (Ok (Send 200 (JStr "success")), w'').
Proof.
  intros Hwf Hfind Hcmp. unfold exec, outcome.
  rewrite (replies_post_run w board text password thread_id t Hfind). cbn [snd].
  set (r := Reply.mk (oids w) text (Date_now (ticks w))
              (bcrypt_hash password 10 (salts w)) false).
  match goal with |- context [replies_delete _ _ _ ?w1] => set (w1' := w1) end.
  assert (Hr : findById Reply._id (oids w) (replies (db w1')) = Some r)
    by (apply findById_snoc_fresh; [apply Hwf | reflexivity]).
  rewrite (replies_delete_run w1' thread_id (oids w) r password Hr).
  cbn [Reply.delete_password r]. rewrite Hcmp. cbn [fst snd].
  split; [reflexivity|].
  assert (Hr' : findById Reply._id (oids w)
                  (replies (db (with_db (fun d => set_replies
                     (updateOne Reply._id (oids w) (Reply.set_text "[deleted]")
                        (replies d)) d) w1')))
                = Some (Reply.set_text "[deleted]" r)).
  { cbn [db with_db replies set_replies].
    apply findById_updateOne_same; [reflexivity | exact Hr]. }
  split; [exact Hr'|].
  rewrite (replies_delete_run _ thread_id (oids w) _ password Hr').
  cbn [Reply.delete_password Reply.set_text r]. rewrite Hcmp.
  f_equal. apply with_db_id. cbn [db with_db replies set_replies].
  rewrite updateOne_twice by reflexivity.
  now destruct (db w1').
Qed.

(** ** The writes behind each request *)

Lemma validate_board_nil (name : string) :
  validate boardSchema [("name", Some name)] = [] -> name <> "".
Proof.
  unfold validate. simpl.
  destruct (String.eqb_spec name ""); [discriminate | trivial].
Qed.

Lemma validate_thread_nil (text digest : string) :
  validate threadSchema [("text", Some text); ("delete_password", Some digest)] = [] ->
  text <> "" /\ digest <> "".
Proof.
  unfold validate. simpl.
  destruct (String.eqb_spec text ""); [discriminate|].
  destruct (String.eqb_spec digest ""); [discriminate | auto].
Qed.

Lemma validate_reply_nil (text : option string) (digest : string) :
  validate replySchema [("text", text); ("delete_password", Some digest)] = [] ->
  digest <> "".
Proof.
  unfold validate. simpl.
  destruct (String.eqb_spec digest ""); [discriminate | trivial].
Qed.

Lemma writes_step (d d' : Db) : write_step d d' -> writes d d'.
Proof. intros H. eapply writes_more; [apply writes_none | exact H]. Qed.

Lemma writes_trans (d1 d2 d3 : Db) : writes d1 d2 -> writes d2 d3 -> writes d1 d3.
Proof.
  intros H12 H23. induction H23 as [|d d' _ IH Hstep]; [exact H12|].
  eapply writes_more; eauto.
Qed.

Lemma getBoard_writes (w : World) (name : string) :
  writes (db w) (db (exec (getBoard name) w)).
Proof.
  unfold getBoard, exec, bind, Board_findOne, read.
  destruct (find _ (boards (db w))) as [b|] eqn:Hfind; [apply writes_none|].
  unfold Board_create, bind, new_ObjectId.
  destruct (validate boardSchema _) eqn:Hv; [|apply writes_none].
  apply writes_step.
  apply (ws_add_board (db w) (Board.mk (oids w) name []));
    [exact Hfind | exact (validate_board_nil _ Hv) | reflexivity].
Qed.

Lemma threads_post_writes (w : World) (board : string) (text password : option string) :
  writes (db w) (db (exec (threads_post board text password) w)).
Proof.
  unfold threads_post, exec, hash, bind.
  destruct password as [p|]; [|apply writes_none].
  match goal with |- context [getBoard board ?w1] =>
    pose proof (getBoard_writes w1 board) as Hboard; unfold exec in Hboard;
    destruct (getBoard board w1) as [[b|e] w2]
  end; cbn [snd db] in *; [|exact Hboard].
  unfold Thread_create, bind, new_ObjectId, now.
  destruct text as [s|];
    destruct (validate threadSchema _) eqn:Hv; cbn [snd throw db]; try exact Hboard.
  unfold write, ret. cbn [snd db with_db].
  destruct (validate_thread_nil _ _ Hv) as [Hs Hd].
  eapply writes_more; [eapply writes_more; [exact Hboard|]|].
  - apply (ws_add_thread (db w2)
             (Thread.mk (oids w2) s (Date_now (ticks w2)) (Date_now (S (ticks w2)))
                (bcrypt_hash p 10 (salts w)) false [])); auto.
  - apply ws_push_thread.
Qed.

Lemma replies_post_writes (w : World) (board : string) (text password : option string)
    (thread_id : ObjectId) :
  wf w ->
  writes (db w) (db (exec (replies_post board text password thread_id) w)).
Proof.
  intros Hwf.
  unfold replies_post, exec, hash, bind, Thread_findOne, read.
  destruct password as [p|]; [|apply writes_none].
  unfold Reply_create, bind, new_ObjectId, now. cbn [db oids ticks salts].
  destruct (validate replySchema _) eqn:Hv; [|apply writes_none].
  unfold write, ret. cbn [snd db with_db].
  set (r := Reply.mk (oids w) text (Date_now (ticks w)) (bcrypt_hash p 10 (salts w)) false).
  assert (Hadd : write_step (db w) (set_replies (replies (db w) ++ [r]) (db w))).
  { apply ws_add_reply; [exact (validate_reply_nil _ _ Hv)|].
    apply findById_fresh, Hwf. }
  destruct (findById Thread._id thread_id (threads (db w))) as [t|];
    cbn [option_map snd throw db with_db]; [|now apply writes_step].
  eapply writes_more; [apply writes_step, Hadd|].
  cbn [doc_id Thread_document].
  apply (ws_push_reply _ (Thread._id t) r). cbn [replies set_replies].
  apply findById_snoc_fresh; [apply Hwf | reflexivity].
Qed.

(** Every request changes the store by the writes of [write_step] only. *)
Lemma handle_writes (w : World) (r : request) :
  wf w -> writes (db w) (db (exec (handle r) w)).
Proof.
  intros Hwf. destruct r; cbn [handle].
  - apply threads_post_writes.
  - unfold threads_get, exec, bind.
    pose proof (getBoard_writes w board) as Hboard. unfold exec in Hboard.
    destruct (getBoard board w) as [[b|e] w2]; cbn [snd] in *; [|exact Hboard].
    unfold Thread_find_recent, read, lift, ret.
    now destruct (forEach preview _).
  - unfold threads_delete, exec, bind, Thread_findOne, read, compare.
    destruct (findById Thread._id thread_id (threads (db w))) as [t|];
      cbn [option_map]; [|apply writes_none].
    destruct delete_password as [p|]; [|apply writes_none].
    rewrite Thread_document_password. unfold ret, write.
    destruct (bcrypt_compare p (Thread.delete_password t)); [|apply writes_none].
    apply writes_step, ws_delete_thread.
  - unfold threads_put, exec.
    destruct (js_or thread_id report_id) as [id|]; [|apply writes_none].
    unfold Thread_findByIdAndUpdate_reported, bind, Thread_findOne, read, write.
    destruct (findById Thread._id id (threads (db w)));
      apply writes_step, ws_report_thread.
  - now apply replies_post_writes.
  - apply writes_none.
  - unfold replies_delete, exec, bind, Thread_findOne, Reply_findOne, read, compare.
    destruct (findById Reply._id reply_id (replies (db w))) as [x|];
      cbn [option_map]; [|apply writes_none].
    destruct delete_password as [p|]; [|apply writes_none].
    rewrite Reply_document_password. unfold ret, write.
    destruct (bcrypt_compare p (Reply.delete_password x)); [|apply writes_none].
    apply writes_step, ws_redact_reply.
  - unfold replies_put, exec, Reply_findByIdAndUpdate_reported, bind,
      Reply_findOne, read, write.
    destruct (findById Reply._id reply_id (replies (db w)));
      apply writes_step, ws_report_reply.
Qed.

Lemma handle_wf (w : World) (r : request) : wf w -> wf (exec (handle r) w).
Proof.
  destruct (handlers_preserve_wf) as (H1 & H2 & H3 & H4 & H5 & H6 & H7 & H8).
  intros Hwf.
  destruct r; cbn [handle];
    [apply H1 | apply H2 | apply H3 | apply H4 | apply H5 | apply H6 | apply H7
    | apply H8]; exact Hwf.
Qed.

Lemma serve_wf (rs : list request) (w : World) : wf w -> wf (serve rs w).
Proof.
  revert w. induction rs as [|r rs IH]; intros w Hwf; [exact Hwf|].
  cbn [serve]. apply IH. now apply handle_wf.
Qed.

Lemma serve_writes (rs : list request) (w : World) :
  wf w -> writes (db w) (db (serve rs w)).
Proof.
  revert w. induction rs as [|r rs IH]; intros w Hwf; [apply writes_none|].
  cbn [serve]. eapply writes_trans; [now apply handle_writes|].
  apply IH. now apply handle_wf.
Qed.

Lemma writes_invariant (P : Db -> Prop) :
  (forall d d', write_step d d' -> P d -> P d') ->
  forall d d', writes d d' -> P d -> P d'.
Proof.
  intros Hstep d d' Hw Hd. induction Hw as [|d1 d2 _ IH Hs]; [exact Hd|].
  eapply Hstep; eauto.
Qed.

Section UpdateFacts.
Context {D : Type} (id_of : D -> ObjectId).

Lemma In_updateOne (id : ObjectId) (f : D -> D) (c : list D) (x : D) :
  In x (updateOne id_of id f c) -> In x c \/ exists y, In y c /\ x = f y.
Proof.
  induction c as [|y c IH]; simpl; [tauto|].
  destruct (Nat.eqb (id_of y) id); simpl.
  - intros [<-|Hin]; [right; exists y; auto | auto].
  - intros [<-|Hin]; [auto|].
    destruct (IH Hin) as [H|(z & Hz & ->)]; [auto | right; exists z; auto].
Qed.

Lemma In_deleteOne (id : ObjectId) (c : list D) (x : D) :
  In x (deleteOne id_of id c) -> In x c.
Proof.
  induction c as [|y c IH]; simpl; [tauto|].
  destruct (Nat.eqb (id_of y) id); simpl; [auto|].
  intros [<-|Hin]; auto.
Qed.

Lemma map_updateOne_inv {X : Type} (h : D -> X) (id : ObjectId) (f : D -> D)
    (c : list D) :
  (forall x, h (f x) = h x) -> map h (updateOne id_of id f c) = map h c.
Proof.
  intros Hf. induction c as [|y c IH]; simpl; [reflexivity|].
  destruct (Nat.eqb (id_of y) id); simpl; now rewrite ?Hf, ?IH.
Qed.

Lemma Forall_updateOne (P : D -> Prop) (id : ObjectId) (f : D -> D) (c : list D) :
  (forall x, P x -> P (f x)) -> Forall P c -> Forall P (updateOne id_of id f c).
Proof.
  intros Hf Hc. rewrite Forall_forall in *. intros x Hx.
  destruct (In_updateOne _ _ _ _ Hx) as [H|(y & Hy & ->)]; auto.
Qed.

Lemma Forall_deleteOne (P : D -> Prop) (id : ObjectId) (c : list D) :
  Forall P c -> Forall P (deleteOne id_of id c).
Proof.
  intros Hc. rewrite Forall_forall in *. intros x Hx.
  apply Hc. eapply In_deleteOne; eauto.
Qed.

End UpdateFacts.

Lemma find_none_name (name : string) (bs : list Board.t) :
  find (fun x => String.eqb (Board.name x) name) bs = None ->
  ~ In name (map Board.name bs).
Proof.
  intros Hfind Hin. apply in_map_iff in Hin. destruct Hin as (b & Hb & Hin).
  apply (find_none _ _ Hfind) in Hin. rewrite Hb, String.eqb_refl in Hin.
  discriminate.
Qed.

Lemma NoDup_snoc {A : Type} (l : list A) (x : A) :
  NoDup l -> ~ In x l -> NoDup (l ++ [x]).
Proof.
  intros Hl Hx. induction Hl as [|y l Hy Hl IH]; simpl.
  - repeat constructor. simpl. tauto.
  - constructor.
    + rewrite in_app_iff. simpl. intros [H|[H|[]]]; [tauto|].
      subst. apply Hx. now left.
    + apply IH. intros H. apply Hx. now right.
Qed.

Lemma board_names_ok_step (d d' : Db) :
  write_step d d' -> board_names_ok d -> board_names_ok d'.
Proof.
  intros Hstep [Hnd Hne].
  destruct Hstep; unfold board_names_ok; cbn [boards set_boards set_threads set_replies];
    try (split; assumption).
  - rewrite map_app. cbn [map]. split.
    + apply NoDup_snoc; [exact Hnd | now apply find_none_name].
    + apply Forall_app. split; [exact Hne | now repeat constructor].
  - rewrite (map_updateOne_inv Board._id Board.name) by reflexivity.
    split; [exact Hnd|]. apply Forall_updateOne; [|exact Hne]. auto.
Qed.

Lemma documents_valid_step (d d' : Db) :
  write_step d d' -> documents_valid d -> documents_valid d'.
Proof.
  intros Hstep [Ht Hr].
  destruct Hstep; unfold documents_valid;
    cbn [threads replies set_boards set_threads set_replies];
    try (split; assumption); (split; [|try assumption]); try assumption.
  - apply Forall_app. split; [exact Ht | now repeat constructor].
  - apply Forall_app. split; [exact Hr | now repeat constructor].
  - apply Forall_updateOne; [|exact Ht]. auto.
  - now apply Forall_deleteOne.
  - apply Forall_updateOne; [|exact Ht]. auto.
  - apply Forall_updateOne; [|exact Hr]. auto.
  - apply Forall_updateOne; [|exact Hr]. auto.
Qed.

Lemma findById_updateOne_some (rs : list Reply.t) (rid id : ObjectId)
    (f : Reply.t -> Reply.t) :
  (forall x, Reply._id (f x) = Reply._id x) ->
  findById Reply._id id rs <> None ->
  findById Reply._id id (updateOne Reply._id rid f rs) <> None.
Proof.
  intros Hf Hsome. rewrite findById_updateOne by exact Hf.
  destruct (Nat.eqb id rid); [|exact Hsome].
  now destruct (findById Reply._id id rs).
Qed.

Lemma replies_resolve_step (d d' : Db) :
  write_step d d' -> replies_resolve d -> replies_resolve d'.
Proof.
  intros Hstep Hres.
  destruct Hstep; unfold replies_resolve;
    cbn [threads replies set_boards set_threads set_replies]; try exact Hres.
  - intros t' Hin. apply in_app_or in Hin. destruct Hin as [Hin|[<-|[]]]; [auto|].
    rewrite H1. constructor.
  - intros t' Hin. eapply Forall_impl; [|apply (Hres t' Hin)].
    intros id Hid. destruct (findById Reply._id id (replies d)) as [x|] eqn:Hx;
      [|contradiction].
    now rewrite (findById_app_l Reply._id id _ [r] x Hx).
  - intros t' Hin. destruct (In_updateOne _ _ _ _ _ Hin) as [Hold|(y & Hy & ->)]; [auto|].
    cbn [Thread.push_reply Thread.replies]. apply Forall_app. split; [auto|].
    constructor; [|constructor]. now rewrite H.
  - intros t' Hin. apply Hres. eapply In_deleteOne; eauto.
  - intros t' Hin. destruct (In_updateOne _ _ _ _ _ Hin) as [Hold|(y & Hy & ->)]; auto.
    exact (Hres y Hy).
  - intros t' Hin. eapply Forall_impl; [|apply (Hres t' Hin)].
    intros id. now apply findById_updateOne_some.
  - intros t' Hin. eapply Forall_impl; [|apply (Hres t' Hin)].
    intros id. now apply findById_updateOne_some.
Qed.

Lemma findById_updateOne_created (rs : list Reply.t) (rid id : ObjectId)
    (f : Reply.t -> Reply.t) (r : Reply.t) :
  (forall x, Reply._id (f x) = Reply._id x) ->
  (forall x, Reply.created_on (f x) = Reply.created_on x) ->
  findById Reply._id id rs = Some r ->
  exists r',
    findById Reply._id id (updateOne Reply._id rid f rs) = Some r'
    /\ Reply.created_on r' = Reply.created_on r.
Proof.
  intros Hf Hc Hr. rewrite findById_updateOne by exact Hf. rewrite Hr.
  destruct (Nat.eqb id rid); cbn [option_map]; eauto.
Qed.

Lemma bumped_by_last_reply_step (d d' : Db) :
  write_step d d' -> bumped_by_last_reply d -> bumped_by_last_reply d'.
Proof.
  intros Hstep Hb.
  destruct Hstep; unfold bumped_by_last_reply;
    cbn [threads replies set_boards set_threads set_replies]; try exact Hb.
  - intros t' earlier rid Hin Hlast.
    apply in_app_or in Hin. destruct Hin as [Hin|[<-|[]]]; [eauto|].
    rewrite H1 in Hlast. now destruct earlier.
  - intros t' earlier rid Hin Hlast.
    destruct (Hb t' earlier rid Hin Hlast) as (x & Hx & Hbx).
    exists x. split; [|exact Hbx]. now apply findById_app_l.
  - intros t' earlier rid Hin Hlast.
    destruct (In_updateOne _ _ _ _ _ Hin) as [Hold|(y & Hy & ->)]; [eauto|].
    cbn [Thread.push_reply Thread.replies Thread.bumped_on] in *.
    apply app_inj_tail in Hlast. destruct Hlast as [_ <-]. eauto.
  - intros t' earlier rid Hin Hlast.
    apply (Hb t' earlier rid); [eapply In_deleteOne; eauto | exact Hlast].
  - intros t' earlier rid Hin Hlast.
    destruct (In_updateOne _ _ _ _ _ Hin) as [Hold|(y & Hy & ->)]; [eauto|].
    exact (Hb y earlier rid Hy Hlast).
  - intros t' earlier rid' Hin Hlast.
    destruct (Hb t' earlier rid' Hin Hlast) as (x & Hx & Hbx).
    destruct (findById_updateOne_created (replies d) rid rid'
                (Reply.set_reported true) x (fun _ => eq_refl) (fun _ => eq_refl) Hx)
      as (x' & Hx' & Hc).
    exists x'. split; [exact Hx' | congruence].
  - intros t' earlier rid' Hin Hlast.
    destruct (Hb t' earlier rid' Hin Hlast) as (x & Hx & Hbx).
    destruct (findById_updateOne_created (replies d) rid rid'
                (Reply.set_text "[deleted]") x (fun _ => eq_refl) (fun _ => eq_refl) Hx)
      as (x' & Hx' & Hc).
    exists x'. split; [exact Hx' | congruence].
Qed.

Lemma reply_evolves_refl (r : Reply.t) : reply_evolves r r.
Proof. unfold reply_evolves. repeat split; auto. Qed.

Lemma reply_evolves_trans (r1 r2 r3 : Reply.t) :
  reply_evolves r1 r2 -> reply_evolves r2 r3 -> reply_evolves r1 r3.
Proof.
  intros (Hi & Hc & Hd & Ht & Hr) (Hi' & Hc' & Hd' & Ht' & Hr').
  unfold reply_evolves. repeat split; try congruence; [|auto].
  destruct Ht' as [Ht'|Ht']; [|now right].
  destruct Ht as [Ht|Ht]; [left | right]; congruence.
Qed.

Lemma reply_kept_step (d d' : Db) (id : ObjectId) (r : Reply.t) :
  write_step d d' ->
  findById Reply._id id (replies d) = Some r ->
  exists r', findById Reply._id id (replies d') = Some r' /\ reply_evolves r r'.
Proof.
  intros Hstep Hr.
  destruct Hstep; cbn [replies set_boards set_threads set_replies];
    try (exists r; split; [exact Hr | apply reply_evolves_refl]).
  - exists r. split; [now apply findById_app_l | apply reply_evolves_refl].
  - rewrite findById_updateOne by reflexivity. rewrite Hr.
    destruct (Nat.eqb id rid); cbn [option_map];
      eexists; (split; [reflexivity|]); [|apply reply_evolves_refl].
    unfold reply_evolves. cbn. repeat split; auto.
  - rewrite findById_updateOne by reflexivity. rewrite Hr.
    destruct (Nat.eqb id rid); cbn [option_map];
      eexists; (split; [reflexivity|]); [|apply reply_evolves_refl].
    unfold reply_evolves. cbn. repeat split; auto.
Qed.

Lemma board_evolves_refl (b : Board.t) : board_evolves b b.
Proof.
  unfold board_evolves. repeat split. exists []. now rewrite app_nil_r.
Qed.

Lemma board_evolves_trans (b1 b2 b3 : Board.t) :
  board_evolves b1 b2 -> board_evolves b2 b3 -> board_evolves b1 b3.
Proof.
  intros (Hi & Hn & m & Hm) (Hi' & Hn' & m' & Hm').
  unfold board_evolves. repeat split; try congruence.
  exists (m ++ m'). now rewrite Hm', Hm, app_assoc.
Qed.

Lemma find_name_updateOne (name : string) (id : ObjectId) (f : Board.t -> Board.t)
    (bs : list Board.t) (b : Board.t) :
  (forall x, Board.name (f x) = Board.name x) ->
  find (fun x => String.eqb (Board.name x) name) bs = Some b ->
  find (fun x => String.eqb (Board.name x) name) (updateOne Board._id id f bs) = Some b
  \/ find (fun x => String.eqb (Board.name x) name) (updateOne Board._id id f bs)
     = Some (f b).
Proof.
  intros Hf. induction bs as [|x bs IH]; simpl; [discriminate|].
  destruct (String.eqb (Board.name x) name) eqn:Hx.
  - intros [= ->]. destruct (Nat.eqb (Board._id b) id); simpl.
    + right. now rewrite Hf, Hx.
    + left. now rewrite Hx.
  - intros H. destruct (Nat.eqb (Board._id x) id); simpl.
    + rewrite Hf, Hx. now left.
    + rewrite Hx. now apply IH.
Qed.

Lemma board_kept_step (d d' : Db) (name : string) (b : Board.t) :
  write_step d d' ->
  find (fun x => String.eqb (Board.name x) name) (boards d) = Some b ->
  exists b',
    find (fun x => String.eqb (Board.name x) name) (boards d') = Some b'
    /\ board_evolves b b'.
Proof.
  intros Hstep Hb.
  destruct Hstep; cbn [boards set_boards set_threads set_replies];
    try (exists b; split; [exact Hb | apply board_evolves_refl]).
  - exists b. split; [|apply board_evolves_refl].
    destruct (find_split _ _ _ Hb) as (l1 & l2 & -> & Hl1 & Hp).
    rewrite <- app_assoc, find_app_none by exact Hl1. simpl. now rewrite Hp.
  - destruct (find_name_updateOne name id (Board.push_thread tid) (boards d) b
                (fun _ => eq_refl) Hb) as [H|H]; rewrite H; eexists;
      (split; [reflexivity|]); [apply board_evolves_refl|].
    unfold board_evolves. cbn. repeat split. now exists [tid].
Qed.

(** ** The store after any sequence of requests *)

(** X15. After any sequence of requests served from the empty store, the
    ids of the boards, of the threads and of the replies are all different
    within their collection, and below the counter that new ids are drawn
    from. *)
Theorem served_ids_unique (rs : list request) : wf (serve rs empty_world).
Proof. apply serve_wf, wf_empty_world. Qed.

(** X16. After any sequence of requests served from the empty store, no
    two boards have the same name and no board has the empty name:
    [getBoard] creates a board only when it found none of that name, and
    validation refuses the empty name. *)
Theorem served_board_names_unique (rs : list request) :
  board_names_ok (db (serve rs empty_world)).
Proof.
  apply (writes_invariant board_names_ok board_names_ok_step (db empty_world)).
  - apply serve_writes, wf_empty_world.
  - split; constructor.
Qed.

(** X17. After any sequence of requests served from the empty store, every
    stored thread has a text and a digest that are not empty and every stored
    reply has a digest that is not empty: what validation refuses is never
    stored, and no later write touches these paths of a thread. *)
Theorem served_documents_valid (rs : list request) :
  documents_valid (db (serve rs empty_world)).
Proof.
  apply (writes_invariant documents_valid documents_valid_step (db empty_world)).
  - apply serve_writes, wf_empty_world.
  - split; constructor.
Qed.

Lemma populate_all_length (rs : list Reply.t) (ids : list ObjectId) :
  Forall (fun id => findById Reply._id id rs <> None) ids ->
  length (flat_map (populate_reply rs) (map JOid ids)) = length ids.
Proof.
  induction 1 as [|id ids Hid _ IH]; [reflexivity|].
  cbn [map flat_map populate_reply]. rewrite length_app, IH.
  now destruct (findById Reply._id id rs).
Qed.

(** X18. After any sequence of requests served from the empty store, every
    reply id on a stored thread refers to a stored reply: [populate] drops
    none, so the thread is shown in full with as many replies as it has ids,
    and listed with that number as [replycount]. *)
Theorem served_replies_resolve (rs : list request) :
  let w := serve rs empty_world in
  replies_resolve (db w)
  /\ forall t,
       In t (threads (db w)) ->
       length (reply_views (populate (replies (db w)) (doc (Thread_document None t))))
       = length (Thread.replies t)
       /\ replycount_of (JObj (thread_list_view (replies (db w)) t))
          = Some (Z.of_nat (length (Thread.replies t))).
Proof.
  cbn zeta.
  assert (Hres : replies_resolve (db (serve rs empty_world))).
  { apply (writes_invariant replies_resolve replies_resolve_step (db empty_world)).
    - apply serve_writes, wf_empty_world.
    - intros t []. }
  split; [exact Hres|]. intros t Ht.
  rewrite reply_views_populate, thread_list_view_replycount.
  now rewrite (populate_all_length _ _ (Hres t Ht)).
Qed.

(** X19. After any sequence of requests served from the empty store, a
    stored thread that has replies has the [created_on] of its last reply as
    [bumped_on]. *)
Theorem served_bumped_by_last_reply (rs : list request) :
  bumped_by_last_reply (db (serve rs empty_world)).
Proof.
  apply (writes_invariant bumped_by_last_reply bumped_by_last_reply_step
           (db empty_world)).
  - apply serve_writes, wf_empty_world.
  - intros t earlier rid [].
Qed.

(** X20. No request removes a reply or changes its id, creation date or
    digest: a reply stored in a world with unique ids is still stored under
    its id after any sequence of requests, with the same text or the marker
    '[deleted]', and still reported if it was. *)
Theorem replies_are_kept (rs : list request) (w : World) (id : ObjectId) (r : Reply.t) :
  wf w ->
  findById Reply._id id (replies (db w)) = Some r ->
  exists r',
    findById Reply._id id (replies (db (serve rs w))) = Some r'
    /\ reply_evolves r r'.
Proof.
  intros Hwf Hr.
  apply (writes_invariant
           (fun d => exists r', findById Reply._id id (replies d) = Some r'
                                /\ reply_evolves r r')) with (d := db w).
  - intros d d' Hstep (x & Hx & Hev).
    destruct (reply_kept_step d d' id x Hstep Hx) as (x' & Hx' & Hev').
    exists x'. split; [exact Hx' | eapply reply_evolves_trans; eauto].
  - now apply serve_writes.
  - exists r. split; [exact Hr | apply reply_evolves_refl].
Qed.

(** X21. No request removes a board, renames it or takes a thread id off
    it: a board found under a name in a world with unique ids is still found
    under that name after any sequence of requests, with the same id and with
    its thread list grown at the end, if at all. *)
Theorem boards_are_kept (rs : list request) (w : World) (name : string) (b : Board.t) :
  wf w ->
  find (fun x => String.eqb (Board.name x) name) (boards (db w)) = Some b ->
  exists b',
    find (fun x => String.eqb (Board.name x) name) (boards (db (serve rs w))) = Some b'
    /\ board_evolves b b'.
Proof.
  intros Hwf Hb.
  apply (writes_invariant
           (fun d => exists b',
              find (fun x => String.eqb (Board.name x) name) (boards d) = Some b'
              /\ board_evolves b b')) with (d := db w).
  - intros d d' Hstep (x & Hx & Hev).
    destruct (board_kept_step d d' name x Hstep Hx) as (x' & Hx' & Hev').
    exists x'. split; [exact Hx' | eapply board_evolves_trans; eauto].
  - now apply serve_writes.
  - exists b. split; [exact Hb | apply board_evolves_refl].
Qed.

(** ** Bumping *)

Lemma sorted_head (l : list Thread.t) (x : Thread.t) :
  StronglySorted bumped_after l ->
  In x l ->
  (forall y, In y l -> (Thread.bumped_on x <= Thread.bumped_on y)%Z -> y = x) ->
  exists rest, l = x :: rest.
Proof.
  intros Hs Hin Hmax. destruct Hs as [|h tl Hs Hh]; [destruct Hin|].
  exists tl. f_equal. apply Hmax; [now left|].
  destruct Hin as [->|Hin]; [lia|].
  rewrite Forall_forall in Hh. exact (Hh x Hin).
Qed.

(** X22. A reply bumps its thread to the top of its board: in a store with
    unique ids, when the date read from the clock for the new reply is later
    than the [bumped_on] of every other thread, then after
    POST /api/replies/:board on a thread of a board,
    GET /api/threads/:board for that board lists that thread first, with the
    date of the reply as [bumped_on]. *)
Theorem reply_bumps_thread_to_top (w : World) (board posted_on : string)
    (text : option string) (password : string) (thread_id : ObjectId)
    (t : Thread.t) (b : Board.t) :
  wf w -> board <> "" ->
  findById Thread._id thread_id (threads (db w)) = Some t ->
  find (fun x => String.eqb (Board.name x) board) (boards (db w)) = Some b ->
  In thread_id (Board.threads b) ->
  (forall u, In u (threads (db w)) -> Thread._id u <> thread_id ->
             (Thread.bumped_on u < Date_now (ticks w))%Z) ->
  let w' := exec (replies_post posted_on text (Some password) thread_id) w in
  exists v rest,
    outcome (threads_get board) w' = Ok (Send 200 (JArr (v :: rest)))
    /\ id_of_view v = Some thread_id
    /\ bumped_on_of v = Some (Date_now (ticks w)).
Proof.
  intros Hwf Hb Hfind Hboard Hin Hlater. unfold exec.
  rewrite (replies_post_run w posted_on text password thread_id t Hfind). cbn [snd].
  match goal with |- context [outcome _ ?w1] => set (w' := w1) end.
  rewrite threads_get_outcome.
  assert (Hget : outcome (getBoard board) w' = Ok b).
  { unfold outcome. generalize (getBoard_run w' board Hb).
    unfold w' at 1. cbn [db boards]. rewrite Hboard. now intros ->. }
  rewrite Hget.
  set (t' := Thread.push_reply (oids w) (Date_now (ticks w)) t).
  set (g := fun x => if Nat.eqb (Thread._id x) thread_id
                     then Thread.push_reply (oids w) (Date_now (ticks w)) x else x).
  assert (Htid : Thread._id t = thread_id) by (eapply findById_id; eauto).
  assert (Hthreads : threads (db w') = map g (threads (db w))).
  { unfold w'. cbn [db threads]. apply updateOne_map, Hwf. }
  set (L := filter (fun x => existsb (Nat.eqb (Thread._id x)) (Board.threads b))
              (threads (db w'))).
  assert (HinL : In t' L).
  { apply filter_In. split.
    - rewrite Hthreads. apply in_map_iff. exists t. split.
      + unfold g. apply Nat.eqb_eq in Htid. now rewrite Htid.
      + eapply findById_In; eauto.
    - apply existsb_exists. exists thread_id. split; [exact Hin|].
      apply Nat.eqb_eq. exact Htid. }
  assert (Hmax : forall y, In y L ->
            (Thread.bumped_on t' <= Thread.bumped_on y)%Z -> y = t').
  { intros y Hy Hle. apply filter_In in Hy. destruct Hy as [Hy _].
    rewrite Hthreads in Hy. apply in_map_iff in Hy. destruct Hy as (z & <- & Hz).
    unfold g in *. destruct (Nat.eqb (Thread._id z) thread_id) eqn:Hzid.
    - apply Nat.eqb_eq in Hzid.
      assert (Hzt : findById Thread._id (Thread._id z) (threads (db w)) = Some z)
        by (apply findById_In_NoDup; [apply Hwf | exact Hz]).
      rewrite Hzid, Hfind in Hzt. now injection Hzt as ->.
    - apply Nat.eqb_neq in Hzid. specialize (Hlater z Hz Hzid).
      cbn [t' Thread.push_reply Thread.bumped_on] in Hle. lia. }
  destruct (sorted_head (sort_bumped_desc L) t' (sort_bumped_desc_sorted L))
    as (rest & Hsorted).
  { apply (Permutation_in _ (Permutation_sym (sort_bumped_desc_perm L))), HinL. }
  { intros y Hy. apply Hmax.
    apply (Permutation_in _ (sort_bumped_desc_perm L)), Hy. }
  unfold recent_threads. fold L. rewrite Hsorted. cbn [firstn map].
  do 2 eexists. split; [reflexivity|]. split; [|reflexivity].
  cbn. now rewrite Htid.
Qed.

(** ** Redaction, again *)

(** X23. For a stored reply, DELETE /api/replies/:board with a password
    that bcrypt does not verify against the digest of the reply answers
    400 'incorrect password' and leaves the whole world, hence the text of
    the reply, as it was. *)
Theorem replies_delete_wrong_password (w : World) (thread_id reply_id : ObjectId)
    (r : Reply.t) (password : string) :
  findById Reply._id reply_id (replies (db w)) = Some r ->
  bcrypt_compare password (Reply.delete_password r) = false ->
  replies_delete (Some password) thread_id reply_id w
  = (Ok (Send 400 (JStr "incorrect password")), w).
Proof.
  intros Hfind Hcmp.
  now rewrite (replies_delete_run w thread_id reply_id r password Hfind), Hcmp.
Qed.




(** ** Threads while they are stored *)

Lemma getBoard_keeps (w : World) (name : string) :
  oids w <= oids (exec (getBoard name) w)
  /\ threads (db (exec (getBoard name) w)) = threads (db w).
Proof.
  unfold getBoard, exec, bind, Board_findOne, read.
  destruct (find _ (boards (db w))); [cbn; split; [lia | reflexivity]|].
  unfold Board_create, bind, new_ObjectId.
  destruct (validate boardSchema _); cbn; split; (lia || reflexivity).
Qed.

Lemma thread_evolves_refl (t : Thread.t) : thread_evolves t t.
Proof.
  unfold thread_evolves. repeat split; auto. exists []. now rewrite app_nil_r.
Qed.

Lemma thread_evolves_trans (t1 t2 t3 : Thread.t) :
  thread_evolves t1 t2 -> thread_evolves t2 t3 -> thread_evolves t1 t3.
Proof.
  intros (Hi & Ht & Hc & Hd & (m & Hm) & Hr) (Hi' & Ht' & Hc' & Hd' & (m' & Hm') & Hr').
  unfold thread_evolves. repeat split; try congruence; [|auto].
  exists (m ++ m'). now rewrite Hm', Hm, app_assoc.
Qed.

(** What a request does to the threads collection, and to the counter of
    ObjectIds. *)
Lemma handle_threads (w : World) (r : request) :
  let ts := threads (db w) in
  let w' := exec (handle r) w in
  oids w <= oids w'
  /\ (threads (db w') = ts
      \/ (exists t, threads (db w') = ts ++ [t] /\ oids w <= Thread._id t)
      \/ (exists id f,
            threads (db w') = updateOne Thread._id id f ts
            /\ forall x, thread_evolves x (f x))
      \/ (exists id, threads (db w') = deleteOne Thread._id id ts)).
Proof.
  cbn zeta. destruct r; cbn [handle].
  - unfold threads_post, exec, hash, bind.
    destruct delete_password as [p|]; [|split; [cbn; lia | now left]].
    match goal with |- context [getBoard board ?w1] =>
      destruct (getBoard_keeps w1 board) as [Hoids Hthreads]; unfold exec in *;
      destruct (getBoard board w1) as [[b|e] w2]
    end; cbn [snd db oids threads] in *; [|split; [lia | now left]].
    unfold Thread_create, bind, new_ObjectId, now.
    destruct text as [s|]; destruct (validate threadSchema _);
      cbn [snd throw write ret with_db db oids threads set_threads set_boards];
      try (split; [lia | now left]).
    split; [lia|]. right. left. eexists. rewrite Hthreads.
    split; [reflexivity|]. cbn. lia.
  - unfold threads_get, exec, bind.
    destruct (getBoard_keeps w board) as [Hoids Hthreads]. unfold exec in *.
    destruct (getBoard board w) as [[b|e] w2]; cbn [snd] in *;
      [|split; [lia | now left]].
    unfold Thread_find_recent, read, lift, ret.
    destruct (forEach preview _); cbn [snd]; split; (lia || now left).
  - unfold threads_delete, exec, bind, Thread_findOne, read, compare.
    destruct (findById Thread._id thread_id (threads (db w))) as [t|];
      cbn [option_map]; [|split; [cbn; lia | now left]].
    destruct delete_password as [p|]; [|split; [cbn; lia | now left]].
    rewrite Thread_document_password. unfold ret, write.
    destruct (bcrypt_compare p (Thread.delete_password t));
      [|split; [cbn; lia | now left]].
    split; [cbn; lia|]. right. right. right. eexists. reflexivity.
  - unfold threads_put, exec.
    destruct (js_or thread_id report_id) as [id|]; [|split; [cbn; lia | now left]].
    unfold Thread_findByIdAndUpdate_reported, bind, Thread_findOne, read, write.
    split; [destruct (findById Thread._id id (threads (db w))); cbn; lia|].
    right. right. left. exists id, (Thread.set_reported true). split.
    + now destruct (findById Thread._id id (threads (db w))).
    + intros x. unfold thread_evolves. cbn. repeat split; auto.
      exists []. now rewrite app_nil_r.
  - unfold replies_post, exec, hash, bind, Thread_findOne, read.
    destruct delete_password as [p|]; [|split; [cbn; lia | now left]].
    unfold Reply_create, bind, new_ObjectId, now. cbn [db oids ticks salts].
    destruct (validate replySchema _); [|split; [cbn; lia | now left]].
    unfold write, ret. cbn [snd db with_db].
    destruct (findById Thread._id thread_id (threads (db w))) as [t|];
      cbn [option_map snd throw db with_db oids threads set_replies set_threads];
      [|split; [lia | now left]].
    split; [lia|]. right. right. left. do 2 eexists. split; [reflexivity|].
    intros x. unfold thread_evolves. cbn. repeat split; auto. eexists. reflexivity.
  - split; [cbn; lia | now left].
  - unfold replies_delete, exec, bind, Thread_findOne, Reply_findOne, read, compare.
    destruct (findById Reply._id reply_id (replies (db w))) as [x|];
      cbn [option_map]; [|split; [cbn; lia | now left]].
    destruct delete_password as [p|]; [|split; [cbn; lia | now left]].
    rewrite Reply_document_password. unfold ret, write.
    destruct (bcrypt_compare p (Reply.delete_password x));
      split; (cbn; lia) || now left.
  - unfold replies_put, exec, Reply_findByIdAndUpdate_reported, bind,
      Reply_findOne, read, write.
    destruct (findById Reply._id reply_id (replies (db w)));
      split; (cbn; lia) || now left.
Qed.

Lemma findById_none_deleteOne {D : Type} (id_of : D -> ObjectId) (id id' : ObjectId)
    (c : list D) :
  findById id_of id c = None -> findById id_of id (deleteOne id_of id' c) = None.
Proof.
  intros Hnone. apply findById_absent. intros Hin.
  apply (deleteOne_incl id_of id' c) in Hin.
  apply in_map_iff in Hin. destruct Hin as (x & Hx & Hin).
  unfold findById in Hnone. apply (find_none _ _ Hnone) in Hin.
  apply Nat.eqb_neq in Hin. contradiction.
Qed.

(** One request, seen from a thread id below the counter. *)
Lemma handle_thread_kept (w : World) (r : request) (id : ObjectId) :
  wf w -> id < oids w ->
  let w' := exec (handle r) w in
  id < oids w'
  /\ (findById Thread._id id (threads (db w)) = None ->
      findById Thread._id id (threads (db w')) = None)
  /\ (forall t t',
        findById Thread._id id (threads (db w)) = Some t ->
        findById Thread._id id (threads (db w')) = Some t' ->
        thread_evolves t t').
Proof.
  intros Hwf Hid. cbn zeta.
  destruct (handle_threads w r) as [Hoids Hshape]. cbn zeta in *.
  split; [lia|].
  destruct Hshape as [->|[(t0 & -> & Ht0)|[(id' & f & -> & Hf)|(id' & ->)]]].
  - split; [trivial|]. intros t t' Ht Ht'.
    rewrite Ht in Ht'. injection Ht' as <-. apply thread_evolves_refl.
  - split.
    + intros Hnone. rewrite findById_app_r by exact Hnone.
      unfold findById. cbn [find].
      destruct (Nat.eqb_spec (Thread._id t0) id); [lia | reflexivity].
    + intros t t' Ht Ht'.
      rewrite (findById_app_l Thread._id id _ [t0] t Ht) in Ht'.
      injection Ht' as <-. apply thread_evolves_refl.
  - assert (Hfid : forall x, Thread._id (f x) = Thread._id x)
      by (intros x; apply (Hf x)).
    split.
    + intros Hnone. rewrite findById_updateOne by exact Hfid. rewrite Hnone.
      now destruct (Nat.eqb id id').
    + intros t t' Ht Ht'. rewrite findById_updateOne in Ht' by exact Hfid.
      rewrite Ht in Ht'. destruct (Nat.eqb id id'); cbn [option_map] in Ht';
        injection Ht' as <-; [apply Hf | apply thread_evolves_refl].
  - split; [apply findById_none_deleteOne|].
    intros t t' Ht Ht'. destruct (Nat.eq_dec id id') as [<-|Hne].
    + rewrite findById_deleteOne in Ht' by apply Hwf. discriminate.
    + rewrite findById_deleteOne_other in Ht' by exact Hne.
      rewrite Ht in Ht'. injection Ht' as <-. apply thread_evolves_refl.
Qed.

(** X25. No request changes the text, the creation date or the digest of a
    thread, or takes a reply id off it: in a world with unique ids, the thread
    found under an id after any sequence of requests is the thread that was
    stored under it before, with the same [text], [created_on] and
    [delete_password], its reply ids followed by those pushed since, and
    still reported if it was.  The id of a deleted thread is not given to a
    new one. *)
Theorem threads_keep_their_fields (rs : list request) (w : World) (id : ObjectId)
    (t t' : Thread.t) :
  wf w ->
  findById Thread._id id (threads (db w)) = Some t ->
  findById Thread._id id (threads (db (serve rs w))) = Some t' ->
  thread_evolves t t'.
Proof.
  intros Hwf Ht.
  assert (Hid : id < oids w).
  { pose proof (wf_threads_below w Hwf) as Hb. unfold ids_below in Hb.
    rewrite Forall_forall in Hb. apply Hb.
    rewrite <- (findById_id _ _ _ _ Ht). apply in_map. eapply findById_In; eauto. }
  assert (Hgen : forall rs w,
            wf w -> id < oids w ->
            (findById Thread._id id (threads (db w)) = None ->
             findById Thread._id id (threads (db (serve rs w))) = None)
            /\ (forall u u',
                  findById Thread._id id (threads (db w)) = Some u ->
                  findById Thread._id id (threads (db (serve rs w))) = Some u' ->
                  thread_evolves u u')).
  { clear. induction rs as [|r rs IH]; intros w Hwf Hid; cbn [serve].
    - split; [trivial|]. intros u u' Hu Hu'. rewrite Hu in Hu'.
      injection Hu' as <-. apply thread_evolves_refl.
    - destruct (handle_thread_kept w r id Hwf Hid) as (Hid' & Hnone & Hsome).
      cbn zeta in *.
      destruct (IH (exec (handle r) w) (handle_wf w r Hwf) Hid') as [IHnone IHsome].
      split; [auto|]. intros u u' Hu Hu'.
      destruct (findById Thread._id id (threads (db (exec (handle r) w))))
        as [m|] eqn:Hm.
      + eapply thread_evolves_trans; [apply (Hsome u m Hu eq_refl)|].
        now apply IHsome.
      + rewrite IHnone in Hu' by reflexivity. discriminate. }
  intros Ht'. exact (proj2 (Hgen rs w Hwf Hid) t t' Ht Ht').
Qed.

End MoreProperties.

(** * The further properties on the board "general" *)



Lemma threads_delete_raises_witness :
  findById Thread._id 7 (threads (db world_again)) = None
  /\ findById Thread._id 1 (threads (db world_again)) = Some thread_hello
  /\ threads_delete (E := demo) (Some "p1") 7 world_again = (Throw TypeError, world_again)
  /\ threads_delete (E := demo) None 1 world_again = (Throw BcryptError, world_again).
Proof.
  assert (Hnone : findById Thread._id 7 (threads (db world_again)) = None)
    by reflexivity.
  assert (Hfind : findById Thread._id 1 (threads (db world_again)) = Some thread_hello)
    by reflexivity.
  split; [exact Hnone|]. split; [exact Hfind|]. split.
  - exact (proj1 (threads_delete_raises (E := demo) world_again 7) Hnone (Some "p1")).
  - exact (proj2 (threads_delete_raises (E := demo) world_again 1) thread_hello Hfind).
Defined.

Lemma replies_delete_raises_witness :
  findById Reply._id 7 (replies (db world_again)) = None
  /\ findById Reply._id 2 (replies (db world_again)) = Some reply_hi
  /\ replies_delete (E := demo) (Some "p2") 1 7 world_again
     = (Throw TypeError, world_again)
  /\ replies_delete (E := demo) None 1 2 world_again = (Throw BcryptError, world_again).
Proof.
  assert (Hnone : findById Reply._id 7 (replies (db world_again)) = None)
    by reflexivity.
  assert (Hfind : findById Reply._id 2 (replies (db world_again)) = Some reply_hi)
    by reflexivity.
  split; [exact Hnone|]. split; [exact Hfind|]. split.
  - exact (proj1 (replies_delete_raises (E := demo) world_again 1 7) Hnone (Some "p2")).
  - exact (proj2 (replies_delete_raises (E := demo) world_again 1 2) reply_hi Hfind).
Defined.

Lemma replies_post_missing_thread_witness :
  findById Thread._id 7 (threads (db world_again)) = None
  /\ outcome (replies_post (E := demo) "general" (Some "lost") (Some "p") 7) world_again
     = Throw TypeError
  /\ replies (db (exec (replies_post (E := demo) "general" (Some "lost") (Some "p") 7)
                    world_again))
     = replies (db world_again) ++ [Reply.mk 4 (Some "lost") 1004 "$2b$p" false].
Proof.
  assert (Hnone : findById Thread._id 7 (threads (db world_again)) = None)
    by reflexivity.
  split; [exact Hnone|].
  destruct (replies_post_missing_thread (E := demo) world_again "general" (Some "lost")
              "p" 7 Hnone) as (Hout & Hreplies & _).
  split; [exact Hout | exact Hreplies].
Defined.

Lemma reads_and_the_store_witness :
  "general" <> "" /\ "other" <> ""
  /\ exec (threads_get "general") world_again = world_again
  /\ outcome (threads_get "other") world_again = Ok (Send 200 (JArr []))
  /\ boards (db (exec (threads_get "other") world_again))
     = boards (db world_again) ++ [Board.mk 4 "other" []].
Proof.
  assert (Hg : "general" <> "") by discriminate.
  assert (Ho : "other" <> "") by discriminate.
  split; [exact Hg|]. split; [exact Ho|].
  pose proof (proj1 (reads_and_the_store world_again) "general" Hg) as Hfound.
  pose proof (proj1 (reads_and_the_store world_again) "other" Ho) as Hnew.
  split; [exact Hfound|].
  destruct Hnew as (Hout & Hboards & _).
  split; [exact Hout | exact Hboards].
Defined.

Lemma listed_thread_is_readable_witness :
  wf world_second /\ "general" <> ""
  /\ exists views,
       outcome (threads_get "general") world_second = Ok (Send 200 (JArr views))
       /\ forall v, In v views ->
            exists id o,
              id_of_view v = Some id
              /\ outcome (replies_get id) world_second = Ok (Send 200 (JObj o))
              /\ view_get "_id" v = obj_get "_id" o
              /\ view_get "text" v = obj_get "text" o
              /\ view_get "created_on" v = obj_get "created_on" o
              /\ view_get "bumped_on" v = obj_get "bumped_on" o
              /\ length (view_replies v) <= 3
              /\ (exists earlier, reply_views o = earlier ++ view_replies v)
              /\ replycount_of v = Some (Z.of_nat (length (reply_views o))).
Proof.
  assert (Hb : "general" <> "") by discriminate.
  split; [exact wf_world_second|]. split; [exact Hb|].
  exact (listed_thread_is_readable world_second "general" wf_world_second Hb).
Defined.

Lemma list_is_scoped_to_board_witness :
  wf world_second /\ "general" <> ""
  /\ find (fun b => String.eqb (Board.name b) "general") (boards (db world_second))
     = Some (Board.mk 0 "general" [1; 4])
  /\ exists views ids,
       outcome (threads_get "general") world_second = Ok (Send 200 (JArr views))
       /\ map id_of_view views = map Some ids
       /\ NoDup ids
       /\ incl ids [1; 4].
Proof.
  assert (Hb : "general" <> "") by discriminate.
  assert (Hfind : find (fun b => String.eqb (Board.name b) "general")
                    (boards (db world_second))
                  = Some (Board.mk 0 "general" [1; 4])) by reflexivity.
  split; [exact wf_world_second|]. split; [exact Hb|]. split; [exact Hfind|].
  exact (list_is_scoped_to_board world_second "general" _ wf_world_second Hb Hfind).
Defined.

Lemma deleted_thread_is_unlisted_witness :
  wf world_second
  /\ findById Thread._id 1 (threads (db world_second)) = Some thread_hello
  /\ bcrypt_compare (Externals := demo) "p1" (Thread.delete_password thread_hello) = true
  /\ "general" <> ""
  /\ outcome (threads_delete (E := demo) (Some "p1") 1) world_second
     = Ok (Send 200 (JStr "success"))
  /\ (exists l1 l2,
         threads (db world_second) = l1 ++ thread_hello :: l2
         /\ threads (db (exec (threads_delete (E := demo) (Some "p1") 1) world_second))
            = l1 ++ l2)
  /\ replies (db (exec (threads_delete (E := demo) (Some "p1") 1) world_second))
     = replies (db world_second)
  /\ exists views,
       outcome (threads_get "general")
         (exec (threads_delete (E := demo) (Some "p1") 1) world_second)
       = Ok (Send 200 (JArr views))
       /\ forall v, In v views -> id_of_view v <> Some 1.
Proof.
  assert (Hfind : findById Thread._id 1 (threads (db world_second)) = Some thread_hello)
    by reflexivity.
  assert (Hyes : bcrypt_compare (Externals := demo) "p1"
                   (Thread.delete_password thread_hello) = true) by reflexivity.
  assert (Hb : "general" <> "") by discriminate.
  split; [exact wf_world_second|]. split; [exact Hfind|]. split; [exact Hyes|].
  split; [exact Hb|].
  destruct (deleted_thread_is_unlisted (E := demo) world_second 1 thread_hello "p1"
              wf_world_second Hfind Hyes) as (Hok & Hframe & _ & Hreplies & Hlist).
  split; [exact Hok|]. split; [exact Hframe|].
  split; [exact Hreplies | exact (Hlist "general" Hb)].
Defined.

Lemma reports_are_invisible_witness :
  wf world_again
  /\ same_reads world_again (exec (threads_put (Some 1) None) world_again)
  /\ same_reads world_again (exec (replies_put 2 1) world_again).
Proof.
  split; [exact wf_world_again|].
  destruct (reports_are_invisible world_again wf_world_again) as [Hthread Hreply].
  split; [exact (Hthread (Some 1) None) | exact (Hreply 2 1)].
Defined.

Lemma posted_thread_is_readable_witness :
  wf empty_world /\ "general" <> "" /\ "hello" <> ""
  /\ exists id,
       findById Thread._id id (threads (db empty_world)) = None
       /\ outcome (replies_get id) world_hello
          = Ok (Send 200
                  (JObj [("_id", JOid id);
                         ("text", JStr "hello");
                         ("created_on", JDate 1000);
                         ("bumped_on", JDate 1001);
                         ("replies", JArr [])]))
       /\ exists b earlier,
            find (fun b => String.eqb (Board.name b) "general") (boards (db world_hello))
            = Some b
            /\ Board.threads b = earlier ++ [id].
Proof.
  assert (Hb : "general" <> "") by discriminate.
  assert (Ht : "hello" <> "") by discriminate.
  split; [exact wf_empty_world|]. split; [exact Hb|]. split; [exact Ht|].
  exact (posted_thread_is_readable (E := demo) empty_world "general" "hello" "p1"
           wf_empty_world Hb Ht).
Defined.

Lemma wf_world_hello : wf world_hello.
Proof.
  pose proof (@handlers_preserve_wf demo) as (Hpost & _).
  apply Hpost, wf_empty_world.
Qed.

Lemma wf_world_hi : wf world_hi.
Proof.
  pose proof (@handlers_preserve_wf demo) as (_ & _ & _ & _ & Hreply & _).
  apply Hreply, wf_world_hello.
Qed.

Lemma posted_reply_is_readable_witness :
  wf world_hi
  /\ findById Thread._id 1 (threads (db world_hi))
     = Some (Thread.mk 1 "hello" 1000 1002 "$2b$p1" false [2])
  /\ Forall (fun id => findById Reply._id id (replies (db world_hi)) <> None) [2]
  /\ exists o o',
       outcome (replies_get 1) world_hi = Ok (Send 200 (JObj o))
       /\ outcome (replies_get 1) world_again = Ok (Send 200 (JObj o'))
       /\ reply_views o'
          = reply_views o
            ++ [JObj [("_id", JOid 3); ("text", JStr "again"); ("created_on", JDate 1003)]]
       /\ obj_get "bumped_on" o' = Some (JDate 1003)
       /\ obj_get "text" o' = obj_get "text" o
       /\ obj_get "created_on" o' = obj_get "created_on" o.
Proof.
  assert (Hfind : findById Thread._id 1 (threads (db world_hi))
                  = Some (Thread.mk 1 "hello" 1000 1002 "$2b$p1" false [2]))
    by reflexivity.
  assert (Hrefs : Forall (fun id => findById Reply._id id (replies (db world_hi)) <> None)
                    [2])
    by (repeat constructor; discriminate).
  split; [exact wf_world_hi|]. split; [exact Hfind|]. split; [exact Hrefs|].
  exact (posted_reply_is_readable (E := demo) world_hi "general" (Some "again") "p3" 1 _
           wf_world_hi Hfind Hrefs).
Defined.

Lemma thread_password_round_trip_witness :
  wf empty_world /\ "general" <> "" /\ "hello" <> ""
  /\ bcrypt_compare (Externals := demo) "p1"
       (bcrypt_hash (Externals := demo) "p1" 10 (salts empty_world)) = true
  /\ exists id,
       findById Thread._id id (threads (db empty_world)) = None
       /\ outcome (threads_delete (E := demo) (Some "p1") id) world_hello
          = Ok (Send 200 (JStr "success"))
       /\ threads (db (exec (threads_delete (E := demo) (Some "p1") id) world_hello))
          = threads (db empty_world)
       /\ forall other,
            bcrypt_compare (Externals := demo) other
              (bcrypt_hash (Externals := demo) "p1" 10 (salts empty_world)) = false ->
            threads_delete (E := demo) (Some other) id world_hello
            = (Ok (Send 400 (JStr "incorrect password")), world_hello).
Proof.
  assert (Hb : "general" <> "") by discriminate.
  assert (Ht : "hello" <> "") by discriminate.
  assert (Hyes : bcrypt_compare (Externals := demo) "p1"
                   (bcrypt_hash (Externals := demo) "p1" 10 (salts empty_world)) = true)
    by reflexivity.
  split; [exact wf_empty_world|]. split; [exact Hb|]. split; [exact Ht|].
  split; [exact Hyes|].
  exact (thread_password_round_trip (E := demo) empty_world "general" "hello" "p1"
           wf_empty_world Hb Ht Hyes).
Defined.

Lemma reply_password_round_trip_witness :
  wf world_hello
  /\ findById Thread._id 1 (threads (db world_hello))
     = Some (Thread.mk 1 "hello" 1000 1001 "$2b$p1" false [])
  /\ bcrypt_compare (Externals := demo) "p2"
       (bcrypt_hash (Externals := demo) "p2" 10 (salts world_hello)) = true
  /\ outcome (replies_delete (E := demo) (Some "p2") 1 2) world_hi
     = Ok (Send 200 (JStr "success"))
  /\ findById Reply._id 2
       (replies (db (exec (replies_delete (E := demo) (Some "p2") 1 2) world_hi)))
     = Some (Reply.mk 2 (Some "[deleted]") 1002 "$2b$p2" false).
Proof.
  assert (Hfind : findById Thread._id 1 (threads (db world_hello))
                  = Some (Thread.mk 1 "hello" 1000 1001 "$2b$p1" false []))
    by reflexivity.
  assert (Hyes : bcrypt_compare (Externals := demo) "p2"
                   (bcrypt_hash (Externals := demo) "p2" 10 (salts world_hello)) = true)
    by reflexivity.
  split; [exact wf_world_hello|]. split; [exact Hfind|]. split; [exact Hyes|].
  destruct (reply_password_round_trip (E := demo) world_hello "general" (Some "hi") "p2"
              1 _ wf_world_hello Hfind Hyes) as (Hok & Hstored & _).
  split; [exact Hok | exact Hstored].
Defined.

Lemma served_replies_resolve_witness :
  In (Thread.mk 1 "hello" 1000 1002 "$2b$p1" false [2])
    (threads (db (serve (E := demo)
                    [POST_threads "general" (Some "hello") (Some "p1");
                     POST_replies "general" (Some "hi") (Some "p2") 1]
                    empty_world)))
  /\ replycount_of
       (JObj (thread_list_view (replies (db world_hi))
                (Thread.mk 1 "hello" 1000 1002 "$2b$p1" false [2])))
     = Some 1%Z.
Proof.
  assert (Hin : In (Thread.mk 1 "hello" 1000 1002 "$2b$p1" false [2])
                  (threads (db (serve (E := demo)
                                  [POST_threads "general" (Some "hello") (Some "p1");
                                   POST_replies "general" (Some "hi") (Some "p2") 1]
                                  empty_world))))
    by (left; reflexivity).
  split; [exact Hin|].
  exact (proj2 (proj2 (served_replies_resolve (E := demo)
                         [POST_threads "general" (Some "hello") (Some "p1");
                          POST_replies "general" (Some "hi") (Some "p2") 1]) _ Hin)).
Defined.

Lemma replies_are_kept_witness :
  wf world_again
  /\ findById Reply._id 2 (replies (db world_again)) = Some reply_hi
  /\ exists r',
       findById Reply._id 2
         (replies (db (serve (E := demo)
                         [DELETE_replies (Some "p2") 1 2; PUT_replies 2 1] world_again)))
       = Some r'
       /\ reply_evolves reply_hi r'.
Proof.
  assert (Hfind : findById Reply._id 2 (replies (db world_again)) = Some reply_hi)
    by reflexivity.
  split; [exact wf_world_again|]. split; [exact Hfind|].
  exact (replies_are_kept (E := demo) [DELETE_replies (Some "p2") 1 2; PUT_replies 2 1]
           world_again 2 reply_hi wf_world_again Hfind).
Defined.

Lemma boards_are_kept_witness :
  wf world_again
  /\ find (fun x => String.eqb (Board.name x) "general") (boards (db world_again))
     = Some (Board.mk 0 "general" [1])
  /\ exists b',
       find (fun x => String.eqb (Board.name x) "general")
         (boards (db (serve (E := demo)
                        [POST_threads "general" (Some "second") (Some "p4")] world_again)))
       = Some b'
       /\ board_evolves (Board.mk 0 "general" [1]) b'.
Proof.
  assert (Hfind : find (fun x => String.eqb (Board.name x) "general")
                    (boards (db world_again))
                  = Some (Board.mk 0 "general" [1])) by reflexivity.
  split; [exact wf_world_again|]. split; [exact Hfind|].
  exact (boards_are_kept (E := demo) [POST_threads "general" (Some "second") (Some "p4")]
           world_again "general" _ wf_world_again Hfind).
Defined.

Lemma reply_bumps_thread_to_top_witness :
  wf world_second /\ "general" <> ""
  /\ findById Thread._id 1 (threads (db world_second)) = Some thread_hello
  /\ find (fun x => String.eqb (Board.name x) "general") (boards (db world_second))
     = Some (Board.mk 0 "general" [1; 4])
  /\ In 1 [1; 4]
  /\ (forall u, In u (threads (db world_second)) -> Thread._id u <> 1 ->
                (Thread.bumped_on u < Date_now (Externals := demo) (ticks world_second))%Z)
  /\ exists v rest,
       outcome (threads_get "general")
         (exec (replies_post (E := demo) "general" (Some "up") (Some "p5") 1) world_second)
       = Ok (Send 200 (JArr (v :: rest)))
       /\ id_of_view v = Some 1
       /\ bumped_on_of v = Some 1006%Z.
Proof.
  assert (Hb : "general" <> "") by discriminate.
  assert (Hfind : findById Thread._id 1 (threads (db world_second)) = Some thread_hello)
    by reflexivity.
  assert (Hboard : find (fun x => String.eqb (Board.name x) "general")
                     (boards (db world_second))
                   = Some (Board.mk 0 "general" [1; 4])) by reflexivity.
  assert (Hin : In 1 [1; 4]) by (left; reflexivity).
  assert (Hlater : forall u, In u (threads (db world_second)) -> Thread._id u <> 1 ->
             (Thread.bumped_on u
              < Date_now (Externals := demo) (ticks world_second))%Z).
  { intros u [<-|[<-|[]]] Hne; [now elim Hne | reflexivity]. }
  split; [exact wf_world_second|]. split; [exact Hb|]. split; [exact Hfind|].
  split; [exact Hboard|]. split; [exact Hin|]. split; [exact Hlater|].
  exact (reply_bumps_thread_to_top (E := demo) world_second "general" "general"
           (Some "up") "p5" 1 thread_hello _ wf_world_second Hb Hfind Hboard Hin Hlater).
Defined.

Lemma replies_delete_wrong_password_witness :
  findById Reply._id 2 (replies (db world_again)) = Some reply_hi
  /\ bcrypt_compare (Externals := demo) "wrong" (Reply.delete_password reply_hi) = false
  /\ replies_delete (E := demo) (Some "wrong") 1 2 world_again
     = (Ok (Send 400 (JStr "incorrect password")), world_again).
Proof.
  assert (Hfind : findById Reply._id 2 (replies (db world_again)) = Some reply_hi)
    by reflexivity.
  assert (Hno : bcrypt_compare (Externals := demo) "wrong"
                  (Reply.delete_password reply_hi) = false) by reflexivity.
  split; [exact Hfind|]. split; [exact Hno|].
  exact (replies_delete_wrong_password (E := demo) world_again 1 2 reply_hi "wrong"
           Hfind Hno).
Defined.


Lemma threads_keep_their_fields_witness :
  wf world_again
  /\ findById Thread._id 1 (threads (db world_again)) = Some thread_hello
  /\ findById Thread._id 1
       (threads (db (serve (E := demo)
                       [POST_replies "general" None (Some "p5") 1; PUT_threads (Some 1) None]
                       world_again)))
     = Some (Thread.mk 1 "hello" 1000 1004 "$2b$p1" true [2; 3; 4])
  /\ thread_evolves thread_hello (Thread.mk 1 "hello" 1000 1004 "$2b$p1" true [2; 3; 4]).
Proof.
  assert (Hfind : findById Thread._id 1 (threads (db world_again)) = Some thread_hello)
    by reflexivity.
  assert (Hafter : findById Thread._id 1
                     (threads (db (serve (E := demo)
                                     [POST_replies "general" None (Some "p5") 1;
                                      PUT_threads (Some 1) None]
                                     world_again)))
                   = Some (Thread.mk 1 "hello" 1000 1004 "$2b$p1" true [2; 3; 4]))
    by reflexivity.
  split; [exact wf_world_again|]. split; [exact Hfind|]. split; [exact Hafter|].
  exact (threads_keep_their_fields (E := demo) _ world_again 1 _ _
           wf_world_again Hfind Hafter).
Defined.
